(** * Sparse scaled-mm epilogues and configurations (CUTLASS 3.x, sm90)

    A shallow embedding of [csrc/sparse/cutlass/sparse_scaled_mm_c3x.cuh]:
    the execution guard [enable_sm90_or_later], the load descriptors and
    [args_from_tensor] of [ScaledEpilogueBase], the four epilogue visitor
    trees with their [prepare_args], the kernel assembly [cutlass_3x_gemm],
    the host entry point [cutlass_sparse_gemm_caller] and the per-dtype
    configuration structs.

    CUTLASS itself (the visitor-tree nodes, the numeric converters, the
    device adapter) is an external library: its arithmetic is taken as a
    type class [Numerics], and the meaning of its tree nodes is written out
    where the header relies on it. *)

From Stdlib Require Import ZArith Bool List Lia.
From Stdlib Require Import Floats.SpecFloat.
From stdpp Require Import base option list.

Set Warnings "-register-all".

Local Open Scope Z_scope.

(* ===================================================================== *)
(** ** 32-bit signed integers ([int32_t]) *)
(* ===================================================================== *)

Module Int32.

Definition modulus : Z := 2 ^ 32.
Definition half_modulus : Z := 2 ^ 31.
Definition min_signed : Z := - half_modulus.
Definition max_signed : Z := half_modulus - 1.

(** Two's-complement wrap-around of a mathematical integer. *)
Definition wrap (z : Z) : Z := (z + half_modulus) mod modulus - half_modulus.

Definition in_range (z : Z) : Prop := min_signed <= z <= max_signed.

Definition add (a b : Z) : Z := wrap (a + b).
Definition sub (a b : Z) : Z := wrap (a - b).
Definition mul (a b : Z) : Z := wrap (a * b).

End Int32.

(* ===================================================================== *)
(** ** Element types and arithmetic *)
(* ===================================================================== *)

(** The element types the epilogues of this header mention: the [int32_t]
    of the integer accumulator and of the zero-point terms, the [float]
    the scales are stored and the products are computed in, and the
    template parameter [ElementD] of the output. *)
Inductive Element := Tint32 | Tfloat | TElementD.

Definition Element_eqb (a b : Element) : bool :=
  match a, b with
  | Tint32, Tint32 | Tfloat, Tfloat | TElementD, TElementD => true
  | _, _ => false
  end.

(** [cutlass::FloatRoundStyle]. *)
Inductive FloatRoundStyle :=
| round_indeterminate
| round_toward_zero
| round_to_nearest
| round_toward_infinity
| round_toward_neg_infinity.

(** The functors handed to [Sm90Compute]. *)
Inductive ComputeFn := multiplies | minus | multiply_add.

(** Floating-point arithmetic of the device, round-to-nearest: the carrier
    of [float], the carrier of [ElementD], the three functors on [float]
    and the [NumericConverter]s between the element types. *)
Class Numerics := {
  float : Type;
  ElementD : Type;
  float_zero : float;
  ElementD_zero : ElementD;
  float_mul : float -> float -> float;
  float_sub : float -> float -> float;
  (** [multiply_add a b c] is [a * b + c] *)
  float_multiply_add : float -> float -> float -> float;
  float_of_int32 : Z -> float;
  int32_of_float : float -> Z;
  float_of_ElementD : ElementD -> float;
  ElementD_of_float : float -> ElementD
}.

(* ===================================================================== *)
(** ** Tensors, pointers and template instantiation *)
(* ===================================================================== *)

(** A [torch::Tensor] as the header uses it: extents, strides, the
    device it lives on and the array [data_ptr()] points to. *)
Record Tensor (A : Type) := mkTensor {
  sizes : list Z;
  strides : list Z;
  device : nat;
  storage : list A
}.
Arguments mkTensor {A}.
Arguments sizes {A}.
Arguments strides {A}.
Arguments device {A}.
Arguments storage {A}.

(** [tensor.numel()]: the product of the extents. *)
Definition numel {A} (t : Tensor A) : Z := fold_right Z.mul 1 (sizes t).

(** [tensor.size(d)] and [tensor.stride(d)]. *)
Definition size {A} (t : Tensor A) (d : nat) : Z := nth d (sizes t) 0.
Definition stride {A} (t : Tensor A) (d : nat) : Z := nth d (strides t) 0.

(** A device pointer to an array of [A]: [None] is [nullptr]. *)
Definition pointer (A : Type) : Type := option (list A).
Definition nullptr {A} : pointer A := None.

(** [tensor.data_ptr()]: the pointer to the storage of the tensor.  The
    null pointer the tensor library hands out for a tensor without
    elements is not told apart from a pointer to an empty array. *)
Definition data_ptr {A} (t : Tensor A) : pointer A := Some (storage t).

(** What a template instantiation yields: the value, or the compile-time
    error (a failed [static_assert], no matching overload) that stops the
    build. *)
Inductive instantiation (A : Type) :=
| Instantiated (a : A)
| CompileError.
Arguments Instantiated {A}.
Arguments CompileError {A}.

(** Sequencing of instantiations: the first failed [static_assert] stops
    the build. *)
Definition inst_bind {A B} (x : instantiation A)
    (k : A -> instantiation B) : instantiation B :=
  match x with
  | Instantiated a => k a
  | CompileError => CompileError
  end.

Notation "x <-! e ; k" := (inst_bind e (fun x => k))
  (at level 100, e at next level, k at level 200, right associativity).

Section Epilogue.

Context `{Num : Numerics}.

(** Carrier of an element type. *)
Definition val (T : Element) : Type :=
  match T with
  | Tint32 => Z
  | Tfloat => float
  | TElementD => ElementD
  end.

(** A value together with its element type, as it flows along the edges
    of a visitor tree. *)
Inductive scalar :=
| Int32 (z : Z)
| Float (x : float)
| OutD (d : ElementD).

Definition inj (T : Element) : val T -> scalar :=
  match T with
  | Tint32 => Int32
  | Tfloat => Float
  | TElementD => OutD
  end.

(** [T(0)], the value a nullable load yields for a null pointer. *)
Definition zero (T : Element) : val T :=
  match T with
  | Tint32 => 0
  | Tfloat => float_zero
  | TElementD => ElementD_zero
  end.

(** [NumericConverter<dst, src, round_to_nearest>].  The header never
    converts between [int32_t] and [ElementD] directly; those two pairs
    are left out of the model. *)
Definition NumericConverter (dst : Element) (v : scalar) : option scalar :=
  match dst, v with
  | Tint32, Int32 _ => Some v
  | Tint32, Float x => Some (Int32 (int32_of_float x))
  | Tfloat, Int32 z => Some (Float (float_of_int32 z))
  | Tfloat, Float _ => Some v
  | Tfloat, OutD d => Some (Float (float_of_ElementD d))
  | TElementD, Float x => Some (OutD (ElementD_of_float x))
  | TElementD, OutD _ => Some v
  | Tint32, OutD _ => None
  | TElementD, Int32 _ => None
  end.

(** A compute functor applied to operands already in the compute type. *)
Definition apply_fn (fn : ComputeFn) (vs : list scalar) : option scalar :=
  match fn, vs with
  | multiplies, [Int32 a; Int32 b] => Some (Int32 (Int32.mul a b))
  | multiplies, [Float a; Float b] => Some (Float (float_mul a b))
  | minus, [Int32 a; Int32 b] => Some (Int32 (Int32.sub a b))
  | minus, [Float a; Float b] => Some (Float (float_sub a b))
  | multiply_add, [Int32 a; Int32 b; Int32 c] =>
      Some (Int32 (Int32.add (Int32.mul a b) c))
  | multiply_add, [Float a; Float b; Float c] =>
      Some (Float (float_multiply_add a b c))
  | _, _ => None
  end.

(* ------------------------------------------------------------------- *)
(** *** Load descriptors of [ScaledEpilogueBase] *)
(* ------------------------------------------------------------------- *)

(** The four descriptor templates: [ColOrScalarLoad<T>],
    [RowOrScalarLoad<T>], [ColLoad<T, EnableNullPtr>] and
    [RowLoad<T, EnableNullPtr>]. *)
Inductive Descriptor :=
| ColOrScalarLoad (T : Element)
| RowOrScalarLoad (T : Element)
| ColLoad (T : Element) (EnableNullPtr : bool)
| RowLoad (T : Element) (EnableNullPtr : bool).

(** [Descriptor::Arguments], and the argument tuple of an [Sm90EVT]
    node: one entry per child, in the order of the children; entries
    left out of the braced initialiser are value-initialised ([{}]). *)
Inductive ArgumentType :=
| args_default
| args_ptr (T : Element) (ptr : pointer (val T))
| args_ptr_flag (T : Element) (ptr : pointer (val T)) (flag : bool)
| args_evt (children : list ArgumentType).

(** The two ways a descriptor can coincide with a load template at
    element type [T], as [std::is_same_v] decides them. *)
Definition is_OrScalarLoad (D : Descriptor) (T : Element) : bool :=
  match D with
  | ColOrScalarLoad T' | RowOrScalarLoad T' => Element_eqb T' T
  | _ => false
  end.

Definition is_nullable_Load (D : Descriptor) (T : Element) : bool :=
  match D with
  | ColLoad T' true | RowLoad T' true => Element_eqb T' T
  | _ => false
  end.

(** [args_from_tensor<Descriptor, T>(torch::Tensor const&)]. *)
Definition args_from_tensor (D : Descriptor) (T : Element)
    (tensor : Tensor (val T)) : instantiation ArgumentType :=
  let data_ptr := data_ptr tensor in
  if is_OrScalarLoad D T then
    Instantiated (args_ptr_flag T data_ptr (negb (numel tensor =? 1)))
  else if is_nullable_Load D T then CompileError
  else Instantiated (args_ptr T data_ptr).

(** [args_from_tensor<Descriptor, T>(c10::optional<torch::Tensor> const&)]:
    the overload for a tensor that may be absent, in which case a
    [nullptr] is passed. *)
Definition args_from_optional_tensor (D : Descriptor) (T : Element)
    (tensor : option (Tensor (val T))) : instantiation ArgumentType :=
  let data_ptr :=
    match tensor with
    | Some t => data_ptr t
    | None => nullptr
    end in
  if is_nullable_Load D T then Instantiated (args_ptr T data_ptr)
  else CompileError.

(* ------------------------------------------------------------------- *)
(** *** Epilogue visitor trees *)
(* ------------------------------------------------------------------- *)

(** [Sm90Compute<fn, ElementOutput, ElementCompute, RoundStyle>]. *)
Record Sm90Compute := mkSm90Compute {
  ComputeFn_of : ComputeFn;
  ElementOutput : Element;
  ElementCompute : Element;
  RoundStyle : FloatRoundStyle
}.

(** A visitor tree: [Sm90AccFetch], [Sm90SrcFetch] (the source operand C),
    a broadcast load, or [Sm90EVT<NodeOp, ChildOps...>]. *)
Inductive EVT :=
| Sm90AccFetch
| Sm90SrcFetch
| Sm90Load (D : Descriptor)
| Sm90EVT (NodeOp : Sm90Compute) (ChildOps : list EVT).

(** Element [k] of the array behind a pointer; a null pointer or an index
    past the end yields nothing. *)
Definition deref {A} (ptr : pointer A) (k : nat) : option A :=
  match ptr with
  | Some data => data !! k
  | None => None
  end.

(** Modelled from the spec: the broadcast loads, which live outside this
    header ([util/broadcast_load_epilogue_c3x.hpp] and CUTLASS).  A "col"
    quantity is a column vector and varies with the row index [m]; a "row"
    quantity is a row vector and varies with the column index [n]; an
    "or scalar" load reads the one value behind the pointer when its flag
    is off; a nullable load of a null pointer yields the constant 0. *)
Definition load (D : Descriptor) (args : ArgumentType) (m n : nat)
    : option scalar :=
  match D, args with
  | ColOrScalarLoad T, args_ptr_flag T' ptr flag =>
      if Element_eqb T T' then inj T' <$> deref ptr (if flag then m else 0%nat)
      else None
  | RowOrScalarLoad T, args_ptr_flag T' ptr flag =>
      if Element_eqb T T' then inj T' <$> deref ptr (if flag then n else 0%nat)
      else None
  | ColLoad T EnableNullPtr, args_ptr T' ptr =>
      if Element_eqb T T' then
        match ptr with
        | None => if EnableNullPtr then Some (inj T' (zero T')) else None
        | Some _ => inj T' <$> deref ptr m
        end
      else None
  | RowLoad T EnableNullPtr, args_ptr T' ptr =>
      if Element_eqb T T' then
        match ptr with
        | None => if EnableNullPtr then Some (inj T' (zero T')) else None
        | Some _ => inj T' <$> deref ptr n
        end
      else None
  | ColLoad T true, args_default | RowLoad T true, args_default =>
      Some (inj T (zero T))
  | _, _ => None
  end.

(** An [Sm90Compute] node: every operand is converted to [ElementCompute],
    the functor is applied, and the result is converted to
    [ElementOutput].  Only [round_to_nearest] is modelled. *)
Definition compute (node : Sm90Compute) (vs : list scalar) : option scalar :=
  match RoundStyle node with
  | round_to_nearest =>
      cvs ← mapM (NumericConverter (ElementCompute node)) vs;
      r ← apply_fn (ComputeFn_of node) cvs;
      NumericConverter (ElementOutput node) r
  | _ => None
  end.

(** The argument tuple of a node, child by child. *)
Definition child_args (args : ArgumentType) : option (list ArgumentType) :=
  match args with
  | args_evt l => Some l
  | args_default => Some []
  | _ => None
  end.

(** One output element of a visitor tree at coordinate [(m, n)], given the
    accumulator element and the source-C element at that coordinate. *)
Fixpoint visit (t : EVT) (args : ArgumentType) (accum : scalar)
    (src : option scalar) (m n : nat) {struct t} : option scalar :=
  match t with
  | Sm90AccFetch => Some accum
  | Sm90SrcFetch => src
  | Sm90Load D => load D args m n
  | Sm90EVT NodeOp ChildOps =>
      l ← child_args args;
      vs ← (fix visit_children (ts : list EVT) (l : list ArgumentType)
              : option (list scalar) :=
              match ts with
              | [] => Some []
              | t' :: ts' =>
                  v ← visit t' (hd args_default l) accum src m n;
                  vs ← visit_children ts' (tl l);
                  Some (v :: vs)
              end) ChildOps l;
      compute NodeOp vs
  end.

(** The children of a node, visited left to right. *)
Fixpoint visit_children (ts : list EVT) (l : list ArgumentType)
    (accum : scalar) (src : option scalar) (m n : nat)
    : option (list scalar) :=
  match ts with
  | [] => Some []
  | t' :: ts' =>
      v ← visit t' (hd args_default l) accum src m n;
      vs ← visit_children ts' (tl l) accum src m n;
      Some (v :: vs)
  end.

(** Whether a tree fetches the source operand C. *)
Fixpoint reads_source (t : EVT) : bool :=
  match t with
  | Sm90SrcFetch => true
  | Sm90EVT _ ChildOps => existsb reads_source ChildOps
  | _ => false
  end.


End Epilogue.

(** [Accum], shared by all epilogues. *)
Definition Accum : EVT := Sm90AccFetch.

(* ===================================================================== *)
(** ** The four epilogues *)
(* ===================================================================== *)

(** [ScaledEpilogue]: D = a_scales * (b_scales * accum). *)
Module ScaledEpilogue.

Definition ScaleA : Descriptor := ColOrScalarLoad Tfloat.
Definition ScaleB : Descriptor := RowOrScalarLoad Tfloat.

Definition Compute0 : Sm90Compute :=
  mkSm90Compute multiplies Tfloat Tfloat round_to_nearest.

Definition EVTCompute0 : EVT := Sm90EVT Compute0 [Sm90Load ScaleB; Accum].

Definition Compute1 : Sm90Compute :=
  mkSm90Compute multiplies TElementD Tfloat round_to_nearest.

Definition EVTCompute : EVT := Sm90EVT Compute1 [Sm90Load ScaleA; EVTCompute0].

Definition prepare_args `{Numerics} (a_scales b_scales : Tensor float)
    : instantiation ArgumentType :=
  a_args <-! args_from_tensor ScaleA Tfloat a_scales;
  b_args <-! args_from_tensor ScaleB Tfloat b_scales;
  let evt0_args := args_evt [b_args] in
  Instantiated (args_evt [a_args; evt0_args]).

End ScaledEpilogue.

(** [ScaledEpilogueBias]: the same with a per-output-channel bias. *)
Module ScaledEpilogueBias.

Definition ScaleA : Descriptor := ColOrScalarLoad Tfloat.
Definition ScaleB : Descriptor := RowOrScalarLoad Tfloat.
Definition Bias : Descriptor := RowLoad TElementD false.

Definition Compute0 : Sm90Compute :=
  mkSm90Compute multiplies Tfloat Tfloat round_to_nearest.

Definition EVTCompute0 : EVT := Sm90EVT Compute0 [Sm90Load ScaleB; Accum].

Definition Compute1 : Sm90Compute :=
  mkSm90Compute multiply_add TElementD Tfloat round_to_nearest.

Definition EVTCompute : EVT :=
  Sm90EVT Compute1 [Sm90Load ScaleA; EVTCompute0; Sm90Load Bias].

Definition prepare_args `{Numerics} (a_scales b_scales : Tensor float)
    (bias : Tensor ElementD) : instantiation ArgumentType :=
  a_args <-! args_from_tensor ScaleA Tfloat a_scales;
  b_args <-! args_from_tensor ScaleB Tfloat b_scales;
  bias_args <-! args_from_tensor Bias TElementD bias;
  let evt0_args := args_evt [b_args] in
  Instantiated (args_evt [a_args; evt0_args; bias_args]).

End ScaledEpilogueBias.

(** [ScaledEpilogueBiasAzp]: per-tensor zero point; [azp_adj] is the full
    term azp * J @ B, of shape (1,n). *)
Module ScaledEpilogueBiasAzp.

Definition ScaleA : Descriptor := ColOrScalarLoad Tfloat.
Definition ScaleB : Descriptor := RowOrScalarLoad Tfloat.
Definition Bias : Descriptor := RowLoad TElementD true.

Definition AzpWithAdj : Descriptor := RowLoad Tint32 false.

(** float(accum - azp_adj), both operands are int32_t *)
Definition ComputeAzp : Sm90Compute :=
  mkSm90Compute minus Tfloat Tint32 round_to_nearest.

Definition EVTComputeAzp : EVT :=
  Sm90EVT ComputeAzp [Accum; Sm90Load AzpWithAdj].

Definition ComputeScaleB : Sm90Compute :=
  mkSm90Compute multiplies Tfloat Tfloat round_to_nearest.

Definition EVTComputeScaleB : EVT :=
  Sm90EVT ComputeScaleB [Sm90Load ScaleB; EVTComputeAzp].

Definition ComputeScaleBiasA : Sm90Compute :=
  mkSm90Compute multiply_add TElementD Tfloat round_to_nearest.

Definition EVTCompute : EVT :=
  Sm90EVT ComputeScaleBiasA [Sm90Load ScaleA; EVTComputeScaleB; Sm90Load Bias].

Definition prepare_args `{Numerics} (a_scales b_scales : Tensor float)
    (azp_adj : Tensor Z) (bias : option (Tensor ElementD))
    : instantiation ArgumentType :=
  a_args <-! args_from_tensor ScaleA Tfloat a_scales;
  b_args <-! args_from_tensor ScaleB Tfloat b_scales;
  bias_args <-! args_from_optional_tensor Bias TElementD bias;
  azp_adj_args <-! args_from_tensor AzpWithAdj Tint32 azp_adj;
  let evt_azp_args := args_evt [args_default; azp_adj_args] in
  let evt_scale_b_args := args_evt [b_args; evt_azp_args] in
  Instantiated (args_evt [a_args; evt_scale_b_args; bias_args]).

End ScaledEpilogueBiasAzp.

(** [ScaledEpilogueBiasAzpToken]: per-token zero point as a rank-1
    update; [azp] has shape (m,1) and [azp_adj] is J @ B, of shape (1,n). *)
Module ScaledEpilogueBiasAzpToken.

Definition ScaleA : Descriptor := ColOrScalarLoad Tfloat.
Definition ScaleB : Descriptor := RowOrScalarLoad Tfloat.
Definition Bias : Descriptor := RowLoad TElementD true.

Definition Azp : Descriptor := ColLoad Tint32 false.
Definition AzpAdj : Descriptor := RowLoad Tint32 false.

(** azp * azp_adj *)
Definition ComputeAzp : Sm90Compute :=
  mkSm90Compute multiplies Tint32 Tint32 round_to_nearest.

Definition EVTComputeAzp : EVT :=
  Sm90EVT ComputeAzp [Sm90Load Azp; Sm90Load AzpAdj].

(** float(accum - azp*azp_adj), all operands are int32_t *)
Definition ComputeAcc : Sm90Compute :=
  mkSm90Compute minus Tfloat Tint32 round_to_nearest.

Definition EVTComputeAcc : EVT := Sm90EVT ComputeAcc [Accum; EVTComputeAzp].

Definition ComputeScaleB : Sm90Compute :=
  mkSm90Compute multiplies Tfloat Tfloat round_to_nearest.

Definition EVTComputeScaleB : EVT :=
  Sm90EVT ComputeScaleB [Sm90Load ScaleB; EVTComputeAcc].

Definition ComputeScaleBiasA : Sm90Compute :=
  mkSm90Compute multiply_add TElementD Tfloat round_to_nearest.

Definition EVTCompute : EVT :=
  Sm90EVT ComputeScaleBiasA [Sm90Load ScaleA; EVTComputeScaleB; Sm90Load Bias].

Definition prepare_args `{Numerics} (a_scales b_scales : Tensor float)
    (azp_adj azp : Tensor Z) (bias : option (Tensor ElementD))
    : instantiation ArgumentType :=
  a_args <-! args_from_tensor ScaleA Tfloat a_scales;
  b_args <-! args_from_tensor ScaleB Tfloat b_scales;
  bias_args <-! args_from_optional_tensor Bias TElementD bias;
  azp_args <-! args_from_tensor Azp Tint32 azp;
  azp_adj_args <-! args_from_tensor AzpAdj Tint32 azp_adj;
  let evt_azp_args := args_evt [azp_args; azp_adj_args] in
  let evt_acc_args := args_evt [args_default; evt_azp_args] in
  let evt_scale_b_args := args_evt [b_args; evt_acc_args] in
  Instantiated (args_evt [a_args; evt_scale_b_args; bias_args]).

End ScaledEpilogueBiasAzpToken.

(** The epilogue chosen for a kernel, and the tensors handed to its
    [prepare_args] (the [EpilogueArgs&&...] of the entry point). *)
Inductive EpilogueKind :=
| ScaledEpilogue_
| ScaledEpilogueBias_
| ScaledEpilogueBiasAzp_
| ScaledEpilogueBiasAzpToken_.

Inductive EpilogueParams `{Numerics} :=
| params_scaled (a_scales b_scales : Tensor float)
| params_bias (a_scales b_scales : Tensor float) (bias : Tensor ElementD)
| params_azp (a_scales b_scales : Tensor float) (azp_adj : Tensor Z)
    (bias : option (Tensor ElementD))
| params_azp_token (a_scales b_scales : Tensor float)
    (azp_adj azp : Tensor Z) (bias : option (Tensor ElementD)).

(** [Epilogue::EVTCompute]. *)
Definition EVTCompute (E : EpilogueKind) : EVT :=
  match E with
  | ScaledEpilogue_ => ScaledEpilogue.EVTCompute
  | ScaledEpilogueBias_ => ScaledEpilogueBias.EVTCompute
  | ScaledEpilogueBiasAzp_ => ScaledEpilogueBiasAzp.EVTCompute
  | ScaledEpilogueBiasAzpToken_ => ScaledEpilogueBiasAzpToken.EVTCompute
  end.

(** [Epilogue::prepare_args(epilogue_params...)]: a parameter pack that
    fits no [prepare_args] of the epilogue does not compile. *)
Definition prepare_args `{Numerics} (E : EpilogueKind) (p : EpilogueParams)
    : instantiation ArgumentType :=
  match E, p with
  | ScaledEpilogue_, params_scaled a_scales b_scales =>
      ScaledEpilogue.prepare_args a_scales b_scales
  | ScaledEpilogueBias_, params_bias a_scales b_scales bias =>
      ScaledEpilogueBias.prepare_args a_scales b_scales bias
  | ScaledEpilogueBiasAzp_, params_azp a_scales b_scales azp_adj bias =>
      ScaledEpilogueBiasAzp.prepare_args a_scales b_scales azp_adj bias
  | ScaledEpilogueBiasAzpToken_,
    params_azp_token a_scales b_scales azp_adj azp bias =>
      ScaledEpilogueBiasAzpToken.prepare_args a_scales b_scales azp_adj azp bias
  | _, _ => CompileError
  end.

(** The epilogue a parameter pack is meant for. *)
Definition kind_of `{Numerics} (p : EpilogueParams) : EpilogueKind :=
  match p with
  | params_scaled _ _ => ScaledEpilogue_
  | params_bias _ _ _ => ScaledEpilogueBias_
  | params_azp _ _ _ _ => ScaledEpilogueBiasAzp_
  | params_azp_token _ _ _ _ _ => ScaledEpilogueBiasAzpToken_
  end.

(* ===================================================================== *)
(** ** The execution guard *)
(* ===================================================================== *)

(** One statement of a device function body: the call of the wrapped
    kernel's [operator()]. *)
Inductive statement := call_Kernel_operator.

Module enable_sm90_or_later.

(** The body of [operator()] after preprocessing, given the value of
    [__CUDA_ARCH__] for the compilation target ([None]: not defined). *)
Definition operator_body (CUDA_ARCH : option Z) : list statement :=
  match CUDA_ARCH with
  | Some arch => if 900 <=? arch then [call_Kernel_operator] else []
  | None => []
  end.

(** Execution of a body on a device state, for a wrapped kernel whose
    [operator()] transforms the state. *)
Definition exec {Args State : Type} (Kernel_operator : Args -> State -> State)
    (args : Args) (body : list statement) (s : State) : State :=
  fold_left (fun s stmt =>
               match stmt with
               | call_Kernel_operator => Kernel_operator args s
               end) body s.

(** [enable_sm90_or_later<Kernel>::operator()]. *)
Definition operator {Args State : Type} (CUDA_ARCH : option Z)
    (Kernel_operator : Args -> State -> State) (args : Args) (s : State)
    : State :=
  exec Kernel_operator args (operator_body CUDA_ARCH) s.

End enable_sm90_or_later.

(* ===================================================================== *)
(** ** Kernel assembly and configurations *)
(* ===================================================================== *)

(** Operand and output element types of the configurations. *)
Inductive DType := half_t | bfloat16_t | float_e4m3_t | int8_t.

Definition DType_eqb (a b : DType) : bool :=
  match a, b with
  | half_t, half_t | bfloat16_t, bfloat16_t
  | float_e4m3_t, float_e4m3_t | int8_t, int8_t => true
  | _, _ => false
  end.

(** [Shape<_a, _b, _c>]. *)
Record Shape := mkShape { shape_0 : Z; shape_1 : Z; shape_2 : Z }.

Inductive KernelScheduleTag :=
| KernelTmaWarpSpecialized
| KernelTmaWarpSpecializedPingpong
| KernelTmaWarpSpecializedPingpongFP8FastAccum
| KernelTmaWarpSpecializedCooperativeFP8FastAccum.

Inductive EpilogueScheduleTag :=
| TmaWarpSpecialized
| TmaWarpSpecializedCooperative.

Inductive TileScheduleTag := PersistentScheduler.

Inductive GemmUniversalMode := kGemm | kGemmSplitKParallel | kBatched | kArray.

(** [cutlass_3x_gemm<ElementAB_, ElementD_, Epilogue_, TileShape,
    ClusterShape, KernelSchedule, EpilogueSchedule, AccType, TileSchedule,
    Mode_>], with the members the header derives: [ElementC] is [void]
    ([None]). *)
Module cutlass_3x_gemm.

Record t := mk {
  ElementAB : DType;
  ElementD : DType;
  Epilogue : EpilogueKind;
  TileShape : Shape;
  ClusterShape : Shape;
  KernelSchedule : KernelScheduleTag;
  EpilogueSchedule : EpilogueScheduleTag;
  ElementAcc : Element;
  TileSchedule : TileScheduleTag;
  Mode : GemmUniversalMode;
  ElementC : option DType
}.

Definition make (ElementAB_ ElementD_ : DType) (Epilogue_ : EpilogueKind)
    (TileShape ClusterShape : Shape) (KernelSchedule : KernelScheduleTag)
    (EpilogueSchedule : EpilogueScheduleTag) (AccType : Element)
    (TileSchedule : TileScheduleTag) (Mode_ : GemmUniversalMode) : t :=
  mk ElementAB_ ElementD_ Epilogue_ TileShape ClusterShape KernelSchedule
     EpilogueSchedule AccType TileSchedule Mode_ None.

(** The defaulted template parameters. *)
Definition make_default (ElementAB_ ElementD_ : DType)
    (Epilogue_ : EpilogueKind) (TileShape ClusterShape : Shape)
    (KernelSchedule : KernelScheduleTag)
    (EpilogueSchedule : EpilogueScheduleTag) (AccType : Element) : t :=
  make ElementAB_ ElementD_ Epilogue_ TileShape ClusterShape KernelSchedule
       EpilogueSchedule AccType PersistentScheduler kGemm.

End cutlass_3x_gemm.

(** [static_assert(std::is_same<InType, T>())] in front of a
    configuration. *)
Definition static_assert_same {A} (InType T : DType) (a : A)
    : instantiation A :=
  if DType_eqb InType T then Instantiated a else CompileError.

(** M in (128, inf) *)
Definition sm90_fp16_config_default (InType OutType : DType)
    (Epilogue : EpilogueKind) : instantiation cutlass_3x_gemm.t :=
  static_assert_same InType half_t
    (cutlass_3x_gemm.make_default InType OutType Epilogue
       (mkShape 128 128 128) (mkShape 2 1 1)
       KernelTmaWarpSpecializedPingpong TmaWarpSpecialized Tfloat).

(** M in (128, inf) *)
Definition sm90_bf16_config_default (InType OutType : DType)
    (Epilogue : EpilogueKind) : instantiation cutlass_3x_gemm.t :=
  static_assert_same InType bfloat16_t
    (cutlass_3x_gemm.make_default InType OutType Epilogue
       (mkShape 128 128 128) (mkShape 2 1 1)
       KernelTmaWarpSpecializedPingpong TmaWarpSpecialized Tfloat).

(** M in (128, inf) *)
Definition sm90_fp8_config_default (InType OutType : DType)
    (Epilogue : EpilogueKind) : instantiation cutlass_3x_gemm.t :=
  static_assert_same InType float_e4m3_t
    (cutlass_3x_gemm.make_default InType OutType Epilogue
       (mkShape 128 128 128) (mkShape 2 1 1)
       KernelTmaWarpSpecializedPingpongFP8FastAccum TmaWarpSpecialized Tfloat).

(** M in [1, 64] *)
Definition sm90_fp8_config_M64 (InType OutType : DType)
    (Epilogue : EpilogueKind) : instantiation cutlass_3x_gemm.t :=
  static_assert_same InType float_e4m3_t
    (cutlass_3x_gemm.make InType OutType Epilogue
       (mkShape 64 64 256) (mkShape 1 1 1)
       KernelTmaWarpSpecializedPingpongFP8FastAccum
       TmaWarpSpecializedCooperative Tfloat PersistentScheduler kGemm).

(** M in (64, 128] *)
Definition sm90_fp8_config_M128 (InType OutType : DType)
    (Epilogue : EpilogueKind) : instantiation cutlass_3x_gemm.t :=
  static_assert_same InType float_e4m3_t
    (cutlass_3x_gemm.make InType OutType Epilogue
       (mkShape 128 64 256) (mkShape 1 1 1)
       KernelTmaWarpSpecializedCooperativeFP8FastAccum
       TmaWarpSpecializedCooperative Tfloat PersistentScheduler kGemm).

(** M in (128, 256] *)
Definition sm90_fp8_config_M256 (InType OutType : DType)
    (Epilogue : EpilogueKind) : instantiation cutlass_3x_gemm.t :=
  static_assert_same InType float_e4m3_t
    (cutlass_3x_gemm.make InType OutType Epilogue
       (mkShape 128 128 256) (mkShape 1 1 1)
       KernelTmaWarpSpecializedCooperativeFP8FastAccum
       TmaWarpSpecializedCooperative Tfloat PersistentScheduler kGemm).

(** M in (256, ] *)
Definition sm90_fp8_config_M512 (InType OutType : DType)
    (Epilogue : EpilogueKind) : instantiation cutlass_3x_gemm.t :=
  static_assert_same InType float_e4m3_t
    (cutlass_3x_gemm.make InType OutType Epilogue
       (mkShape 256 128 128) (mkShape 1 1 1)
       KernelTmaWarpSpecializedPingpongFP8FastAccum
       TmaWarpSpecializedCooperative Tfloat PersistentScheduler kGemm).

(** For M > 128 and any N *)
Definition sm90_int8_config_default (InType OutType : DType)
    (Epilogue : EpilogueKind) : instantiation cutlass_3x_gemm.t :=
  static_assert_same InType int8_t
    (cutlass_3x_gemm.make_default InType OutType Epilogue
       (mkShape 128 128 128) (mkShape 2 1 1)
       KernelTmaWarpSpecializedPingpong TmaWarpSpecialized Tint32).

(** For M in (64, 128] and any N *)
Definition sm90_int8_config_M128 (InType OutType : DType)
    (Epilogue : EpilogueKind) : instantiation cutlass_3x_gemm.t :=
  static_assert_same InType int8_t
    (cutlass_3x_gemm.make_default InType OutType Epilogue
       (mkShape 64 128 128) (mkShape 2 1 1)
       KernelTmaWarpSpecializedPingpong TmaWarpSpecialized Tint32).

(** For M in (32, 64] and any N *)
Definition sm90_int8_config_M64 (InType OutType : DType)
    (Epilogue : EpilogueKind) : instantiation cutlass_3x_gemm.t :=
  static_assert_same InType int8_t
    (cutlass_3x_gemm.make_default InType OutType Epilogue
       (mkShape 64 64 256) (mkShape 1 1 1)
       KernelTmaWarpSpecialized TmaWarpSpecialized Tint32).

(** For M in [1, 32] and N >= 8192 *)
Definition sm90_int8_config_M32_NBig (InType OutType : DType)
    (Epilogue : EpilogueKind) : instantiation cutlass_3x_gemm.t :=
  static_assert_same InType int8_t
    (cutlass_3x_gemm.make_default InType OutType Epilogue
       (mkShape 64 128 256) (mkShape 1 4 1)
       KernelTmaWarpSpecialized TmaWarpSpecialized Tint32).

(** For M in [1, 32] and N < 8192 *)
Definition sm90_int8_config_M32_NSmall (InType OutType : DType)
    (Epilogue : EpilogueKind) : instantiation cutlass_3x_gemm.t :=
  static_assert_same InType int8_t
    (cutlass_3x_gemm.make_default InType OutType Epilogue
       (mkShape 64 64 256) (mkShape 1 8 1)
       KernelTmaWarpSpecialized TmaWarpSpecialized Tint32).

(** Modelled from the spec: the Configuration Selector of the 8-bit
    integer family, which is not part of this header (the header holds
    the configurations and, in their comments, the range of M and N each
    one is for).  Bucketed by M; M <= 32 further splits on N at 8192. *)
Definition sm90_int8_select (OutType : DType) (Epilogue : EpilogueKind)
    (M N : Z) : instantiation cutlass_3x_gemm.t :=
  if M <=? 32 then
    if 8192 <=? N then sm90_int8_config_M32_NBig int8_t OutType Epilogue
    else sm90_int8_config_M32_NSmall int8_t OutType Epilogue
  else if M <=? 64 then sm90_int8_config_M64 int8_t OutType Epilogue
  else if M <=? 128 then sm90_int8_config_M128 int8_t OutType Epilogue
  else sm90_int8_config_default int8_t OutType Epilogue.

(* ===================================================================== *)
(** ** The host entry point *)
(* ===================================================================== *)

(** [cutlass::Status]. *)
Inductive Status :=
| kSuccess
| kErrorMisalignedOperand
| kErrorInvalidDataType
| kErrorInvalidLayout
| kErrorInvalidProblem
| kErrorNotSupported
| kErrorWorkspaceNull
| kErrorInternal
| kErrorArchMismatch
| kErrorInsufficientDriver
| kErrorMemoryAllocation
| kInvalid.

Definition Status_eqb (a b : Status) : bool :=
  match a, b with
  | kSuccess, kSuccess | kErrorMisalignedOperand, kErrorMisalignedOperand
  | kErrorInvalidDataType, kErrorInvalidDataType
  | kErrorInvalidLayout, kErrorInvalidLayout
  | kErrorInvalidProblem, kErrorInvalidProblem
  | kErrorNotSupported, kErrorNotSupported
  | kErrorWorkspaceNull, kErrorWorkspaceNull
  | kErrorInternal, kErrorInternal
  | kErrorArchMismatch, kErrorArchMismatch
  | kErrorInsufficientDriver, kErrorInsufficientDriver
  | kErrorMemoryAllocation, kErrorMemoryAllocation
  | kInvalid, kInvalid => true
  | _, _ => false
  end.

(** [GemmKernel::ProblemShape], a [cute::Shape<int, int, int, int>]. *)
Record ProblemShape := mkProblemShape {
  shape_M : Z;
  shape_N : Z;
  shape_K : Z;
  shape_L : Z
}.

(** [Stride<int64_t, Int<1>, ...>]: only the leading dimension varies. *)
Record Stride := mkStride { stride_0 : Z; stride_1 : Z; stride_2 : Z }.

(** What the header takes from the sparse collective mainloop: the
    carriers of [ElementAB] and [ElementE], the layout type of the
    compressed operand and of its metadata with [SparseConfig]'s two
    layout functions, and the stream of a device. *)
Class Mainloop := {
  operand : Type;
  metadata : Type;
  Layout : Type;
  fill_layoutA : ProblemShape -> Layout;
  fill_layoutE : ProblemShape -> Layout;
  CUDAStream : Type;
  getCurrentCUDAStream : nat -> CUDAStream
}.

Section Arguments_of_the_kernel.

Context `{Num : Numerics} `{ML : Mainloop}.

(** [GemmKernel::MainloopArguments]. *)
Record MainloopArguments := mkMainloopArguments {
  ptr_A : pointer operand;
  layout_a : Layout;
  ptr_B : pointer operand;
  dB : Stride;
  ptr_E : pointer metadata;
  layout_e : Layout
}.

(** [GemmKernel::EpilogueArguments]. *)
Record EpilogueArguments := mkEpilogueArguments {
  thread : ArgumentType;
  ptr_C : pointer ElementD;
  dC : Stride;
  ptr_D : pointer ElementD;
  dD : Stride
}.

(** [GemmKernel::Arguments]. *)
Record GemmArguments := mkGemmArguments {
  mode : GemmUniversalMode;
  problem_shape : ProblemShape;
  mainloop : MainloopArguments;
  epilogue : EpilogueArguments
}.

(** The tensor [torch::empty(workspace_size, options)] returns: so many
    bytes on a device. *)
Record Workspace := mkWorkspace { ws_nbytes : Z; ws_device : nat }.

(** What the entry point does to the world outside, in order: a device
    allocation through [torch::empty], and the kernel handed to a stream
    through [gemm_op.run]. *)
Inductive event :=
| ev_torch_empty (nbytes : Z) (dev : nat)
| ev_run (args : GemmArguments) (workspace : Workspace) (stream : CUDAStream).

Definition is_allocation (ev : event) : bool :=
  match ev with
  | ev_torch_empty _ _ => true
  | _ => false
  end.

Definition is_device_work (ev : event) : bool :=
  match ev with
  | ev_run _ _ _ => true
  | _ => false
  end.

(** How a host call ends: it returns, or an exception carrying a status
    leaves it. *)
Inductive outcome (A : Type) :=
| Returned (a : A)
| Raised (error : Status).

(** Host code: it extends the trace of events and ends in an outcome. *)
Definition Host (A : Type) : Type := list event -> outcome A * list event.

Definition ret {A} (a : A) : Host A := fun tr => (Returned A a, tr).

Definition bind {A B} (x : Host A) (k : A -> Host B) : Host B :=
  fun tr =>
    match x tr with
    | (Returned _ a, tr') => k a tr'
    | (Raised _ st, tr') => (Raised B st, tr')
    end.

Definition emit (ev : event) : Host unit :=
  fun tr => (Returned unit tt, tr ++ [ev]).

Definition raise {A} (st : Status) : Host A := fun tr => (Raised A st, tr).

(** Modelled from the spec: the macro [CUTLASS_CHECK] of [util/common.hpp],
    which is not part of this header: a status other than success aborts
    the call with that status. *)
Definition CUTLASS_CHECK (status : Status) : Host unit :=
  if Status_eqb status kSuccess then ret tt else raise status.

(** [cutlass::gemm::device::GemmUniversalAdapter<GemmKernel>], as far as
    the entry point uses it, and the accumulator the mainloop leaves at a
    coordinate of the output. *)
Class GemmOp := {
  can_implement : cutlass_3x_gemm.t -> GemmArguments -> Status;
  get_workspace_size : cutlass_3x_gemm.t -> GemmArguments -> Z;
  run_status :
    cutlass_3x_gemm.t -> GemmArguments -> Workspace -> CUDAStream -> Status;
  accumulator :
    cutlass_3x_gemm.t -> MainloopArguments -> ProblemShape ->
    nat -> nat -> scalar
}.

Context `{Op : GemmOp}.

(** [torch::empty(workspace_size, options)]. *)
Definition torch_empty (nbytes : Z) (dev : nat) : Host Workspace :=
  bind (emit (ev_torch_empty nbytes dev))
       (fun _ => ret (mkWorkspace nbytes dev)).

(** [gemm_op.run(args, workspace.data_ptr(), stream)]. *)
Definition run (Gemm : cutlass_3x_gemm.t) (args : GemmArguments)
    (workspace : Workspace) (stream : CUDAStream) : Host Status :=
  bind (emit (ev_run args workspace stream))
       (fun _ => ret (run_status Gemm args workspace stream)).

(** The first half of [cutlass_sparse_gemm_caller]: the kernel arguments,
    from the tensors. *)
Definition make_arguments (Gemm : cutlass_3x_gemm.t)
    (out : Tensor ElementD) (a : Tensor operand) (e : Tensor metadata)
    (b : Tensor operand) (epilogue_params : EpilogueParams)
    : instantiation GemmArguments :=
  let m := Int32.wrap (size a 0) in
  let n := Int32.wrap (size b 1) in
  let k := Int32.wrap (size a 1) in
  let lda := stride a 0 in
  let ldb := stride b 1 in
  let ldc := stride out 0 in
  let a_stride := mkStride lda 1 0 in
  let b_stride := mkStride ldb 1 0 in
  let c_stride := mkStride ldc 1 0 in
  let prob_shape := mkProblemShape m n k 1 in
  let a_layout := fill_layoutA prob_shape in
  let e_layout := fill_layoutE prob_shape in
  let a_ptr := data_ptr a in
  let b_ptr := data_ptr b in
  let e_ptr := data_ptr e in
  let mainloop_args :=
    mkMainloopArguments a_ptr a_layout b_ptr b_stride e_ptr e_layout in
  let c_ptr := data_ptr out in
  thread_args <-! prepare_args (cutlass_3x_gemm.Epilogue Gemm) epilogue_params;
  let epilogue_args :=
    mkEpilogueArguments thread_args c_ptr c_stride c_ptr c_stride in
  Instantiated (mkGemmArguments kGemm prob_shape mainloop_args epilogue_args).

(** The second half: launch the CUTLASS GEMM kernel. *)
Definition launch (Gemm : cutlass_3x_gemm.t) (a : Tensor operand)
    (args : GemmArguments) : Host unit :=
  bind (CUTLASS_CHECK (can_implement Gemm args)) (fun _ =>
  let workspace_size := get_workspace_size Gemm args in
  bind (torch_empty workspace_size (device a)) (fun workspace =>
  let stream := getCurrentCUDAStream (device a) in
  bind (run Gemm args workspace stream) (fun status =>
  CUTLASS_CHECK status))).

(** [cutlass_sparse_gemm_caller<Gemm>(out, a, e, b, epilogue_params...)]. *)
Definition cutlass_sparse_gemm_caller (Gemm : cutlass_3x_gemm.t)
    (out : Tensor ElementD) (a : Tensor operand) (e : Tensor metadata)
    (b : Tensor operand) (epilogue_params : EpilogueParams)
    : instantiation (Host unit) :=
  args <-! make_arguments Gemm out a e b epilogue_params;
  Instantiated (launch Gemm a args).

(** The element of C the epilogue would be given at [(m, n)]: the one the
    pointer and stride of C designate. *)
Definition source_C (ea : EpilogueArguments) (m n : nat) : option scalar :=
  OutD <$> deref (ptr_C ea)
             (Z.to_nat (Z.of_nat m * stride_0 (dC ea) + Z.of_nat n)).

(** The element the assembled kernel computes for D at [(m, n)]: the
    epilogue's visitor tree on the accumulator of the mainloop. *)
Definition kernel_D (Gemm : cutlass_3x_gemm.t) (args : GemmArguments)
    (m n : nat) : option scalar :=
  visit (EVTCompute (cutlass_3x_gemm.Epilogue Gemm))
        (thread (epilogue args))
        (accumulator Gemm (mainloop args) (problem_shape args) m n)
        (source_C (epilogue args) m n) m n.

End Arguments_of_the_kernel.
(* ===================================================================== *)
(** ** An IEEE 754 instance of the arithmetic *)
(* ===================================================================== *)

(** [float] as binary32 and [ElementD] as binary16 ([cutlass::half_t]),
    over the Standard Library's executable specification of IEEE 754
    with round-to-nearest-even. *)
Module IEEE.

Definition prec32 : Z := 24.
Definition emax32 : Z := 128.
Definition prec16 : Z := 11.
Definition emax16 : Z := 16.

(** Rounding of a value of one format into another. *)
Definition round_to (prec emax : Z) (x : spec_float) : spec_float :=
  match x with
  | S754_finite s m e => binary_round prec emax s m e
  | _ => x
  end.

Definition of_int32 (z : Z) : spec_float :=
  binary_normalize prec32 emax32 z 0 false.

(** The quotient [m / 2^k] rounded to the nearest integer, ties to even. *)
Definition div_pow2_rne (m k : Z) : Z :=
  let q := m / 2 ^ k in
  let r := m mod 2 ^ k in
  let half := 2 ^ (k - 1) in
  if (half <? r) || ((r =? half) && Z.odd q) then q + 1 else q.

Definition clamp (z : Z) : Z :=
  Z.max Int32.min_signed (Z.min Int32.max_signed z).

(** Conversion to [int32_t], to nearest and saturating; NaN becomes 0. *)
Definition to_int32 (x : spec_float) : Z :=
  match x with
  | S754_zero _ | S754_nan => 0
  | S754_infinity s => if s then Int32.min_signed else Int32.max_signed
  | S754_finite s m e =>
      let r := if 0 <=? e then Zpos m * 2 ^ e else div_pow2_rne (Zpos m) (- e) in
      clamp (cond_Zopp s r)
  end.

(** [a * b + c] with a single rounding. *)
Definition fma (a b c : spec_float) : spec_float :=
  match a, b with
  | S754_finite sa ma ea, S754_finite sb mb eb =>
      match c with
      | S754_finite sc mc ec =>
          let e := Z.min (ea + eb) ec in
          let p := fst (shl_align (ma * mb) (ea + eb) e) in
          let q := fst (shl_align mc ec e) in
          binary_normalize prec32 emax32
            (cond_Zopp (xorb sa sb) (Zpos p) + cond_Zopp sc (Zpos q)) e false
      | S754_zero _ => SFmul prec32 emax32 a b
      | _ => c
      end
  | _, _ => SFadd prec32 emax32 (SFmul prec32 emax32 a b) c
  end.

#[export] Instance numerics : Numerics := {|
  float := spec_float;
  ElementD := spec_float;
  float_zero := S754_zero false;
  ElementD_zero := S754_zero false;
  float_mul := SFmul prec32 emax32;
  float_sub := SFsub prec32 emax32;
  float_multiply_add := fma;
  float_of_int32 := of_int32;
  int32_of_float := to_int32;
  float_of_ElementD := round_to prec32 emax32;
  ElementD_of_float := round_to prec16 emax16
|}.

(** The float nearest to [num / 2^k]. *)
Definition dyadic (num : Z) (k : Z) : spec_float :=
  binary_normalize prec32 emax32 num (- k) false.

Definition half_of (num : Z) (k : Z) : spec_float :=
  binary_normalize prec16 emax16 num (- k) false.

(** A contiguous one-dimensional tensor on device 0. *)
Definition vector {A} (l : list A) : Tensor A :=
  mkTensor [Z.of_nat (length l)] [1] 0%nat l.

End IEEE.


(* ===================================================================== *)
(** ** A stand-in for the compute engine *)
(* ===================================================================== *)

(** The smallest mainloop and device adapter the entry point can be run
    against: raw integers as operands, the problem shape as layout, the
    device index as stream; the adapter answers [can_implement] and [run]
    with fixed statuses and asks for a fixed workspace. *)
Module Engine.

#[export] Instance mainloop : Mainloop := {|
  operand := Z;
  metadata := Z;
  Layout := ProblemShape;
  fill_layoutA := fun s => s;
  fill_layoutE := fun s => s;
  CUDAStream := nat;
  getCurrentCUDAStream := fun dev => dev
|}.

Definition gemm_op (implementable : Status) (workspace_size : Z)
    (launched : Status) : GemmOp (Num := IEEE.numerics) (ML := mainloop) := {|
  can_implement := fun _ _ => implementable;
  get_workspace_size := fun _ _ => workspace_size;
  run_status := fun _ _ _ _ => launched;
  accumulator := fun _ _ _ m n => Int32 (Z.of_nat m + Z.of_nat n)
|}.

(** A contiguous row-major [rows] x [cols] tensor on device 0. *)
Definition matrix {A} (rows cols : Z) (l : list A) : Tensor A :=
  mkTensor [rows; cols] [cols; 1] 0%nat l.

End Engine.

(* ===================================================================== *)
(** ** The specification's data model and formulas *)
(* ===================================================================== *)

(** The definitions of this module follow the words of the
    specification, not the header: they are what the epilogues are
    compared with. *)
Module Spec.

Section Formulas.

Context `{Num : Numerics}.

(** The value a scale descriptor denotes at index [k]: a descriptor of
    element count one is a scalar, broadcast to every index; any other is
    a vector, indexed by [k]. *)
Definition value_at {A} (t : Tensor A) (k : nat) : option A :=
  if numel t =? 1 then storage t !! 0%nat else storage t !! k.

(** The value of the optional bias at column [n]; none is a bias of all
    zeros. *)
Definition bias_at (bias : option (Tensor ElementD)) (n : nat)
    : option ElementD :=
  match bias with
  | Some t => storage t !! n
  | None => Some ElementD_zero
  end.

(** The accumulator: a 32-bit integer for integer operands, a 32-bit
    float otherwise. *)
Inductive Accumulator :=
| acc_int32 (z : Z)
| acc_float (x : float).

Definition acc (a : Accumulator) : scalar :=
  match a with
  | acc_int32 z => Int32 z
  | acc_float x => Float x
  end.

Definition to_float (a : Accumulator) : float :=
  match a with
  | acc_int32 z => float_of_int32 z
  | acc_float x => x
  end.

(** D[i,j] = scaleA[i] * (scaleB[j] * accum[i,j]) *)
Definition ScaleOnly (scaleA scaleB : float) (accum : Accumulator)
    : ElementD :=
  ElementD_of_float (float_mul scaleA (float_mul scaleB (to_float accum))).

(** D[i,j] = scaleA[i] * (scaleB[j] * accum[i,j]) + bias[j], the
    addition fused with the outer multiplication. *)
Definition ScaleBias (scaleA scaleB : float) (accum : Accumulator)
    (bias : ElementD) : ElementD :=
  ElementD_of_float
    (float_multiply_add scaleA (float_mul scaleB (to_float accum))
       (float_of_ElementD bias)).

(** D[i,j] = scaleA[i] * (scaleB[j] * (accum[i,j] - zpAdj[j])) + bias[j],
    the subtraction in the accumulator's 32-bit integer type. *)
Definition ScaleBiasZP_PerTensor (scaleA scaleB : float) (accum zpAdj : Z)
    (bias : ElementD) : ElementD :=
  ElementD_of_float
    (float_multiply_add scaleA
       (float_mul scaleB (float_of_int32 (Int32.sub accum zpAdj)))
       (float_of_ElementD bias)).

(** D[i,j] = scaleA[i] * (scaleB[j] * (accum[i,j] - zp[i]*zpAdj[j]))
    + bias[j], product and subtraction in 32-bit integers. *)
Definition ScaleBiasZP_PerToken (scaleA scaleB : float) (accum zp zpAdj : Z)
    (bias : ElementD) : ElementD :=
  ElementD_of_float
    (float_multiply_add scaleA
       (float_mul scaleB
          (float_of_int32 (Int32.sub accum (Int32.mul zp zpAdj))))
       (float_of_ElementD bias)).

End Formulas.

End Spec.

(** The output element of an epilogue at [(m, n)] for the tensors handed
    to its [prepare_args]. *)
Definition epilogue_output `{Numerics} (p : EpilogueParams) (accum : scalar)
    (src : option scalar) (m n : nat) : instantiation (option scalar) :=
  args <-! prepare_args (kind_of p) p;
  Instantiated (visit (EVTCompute (kind_of p)) args accum src m n).

(** The zero-point adjustment scaled elementwise by [z], as a tensor of
    [int32_t]. *)
Definition scale_by (z : Z) (t : Tensor Z) : Tensor Z :=
  mkTensor (sizes t) (strides t) (device t) (map (Int32.mul z) (storage t)).

(** Concrete inputs on the IEEE arithmetic: two rows and two columns,
    scales 1/2 per tensor and (1/4, 1/8) per column, bias (1, 3/2),
    zero points (3, 5) and column sums (10, 20). *)
Module Sample.

Definition a_scales : Tensor (@float IEEE.numerics) :=
  IEEE.vector [IEEE.dyadic 1 1].
Definition b_scales : Tensor (@float IEEE.numerics) :=
  IEEE.vector [IEEE.dyadic 1 2; IEEE.dyadic 1 3].
Definition bias : Tensor (@ElementD IEEE.numerics) :=
  IEEE.vector [IEEE.half_of 1 0; IEEE.half_of 3 1].
(** The scale 3/4, once in every entry of a vector and once as the one
    element of a 1 x 1 tensor. *)
Definition constant_scales : Tensor (@float IEEE.numerics) :=
  IEEE.vector [IEEE.dyadic 3 2; IEEE.dyadic 3 2].
Definition scalar_scale : Tensor (@float IEEE.numerics) :=
  Engine.matrix 1 1 [IEEE.dyadic 3 2].
Definition azp : Tensor Z := IEEE.vector [3; 5].
Definition azp_adj : Tensor Z := IEEE.vector [10; 20].

Definition out (num k : Z) : @scalar IEEE.numerics :=
  @OutD IEEE.numerics (IEEE.half_of num k).
Definition int32 (z : Z) : @scalar IEEE.numerics := @Int32 IEEE.numerics z.

End Sample.

(** The parameter pack with [a_scales], or [b_scales], replaced. *)
Definition with_a_scales `{Numerics} (p : EpilogueParams) (t : Tensor float)
    : EpilogueParams :=
  match p with
  | params_scaled _ b_scales => params_scaled t b_scales
  | params_bias _ b_scales bias => params_bias t b_scales bias
  | params_azp _ b_scales azp_adj bias => params_azp t b_scales azp_adj bias
  | params_azp_token _ b_scales azp_adj azp bias =>
      params_azp_token t b_scales azp_adj azp bias
  end.

Definition with_b_scales `{Numerics} (p : EpilogueParams) (t : Tensor float)
    : EpilogueParams :=
  match p with
  | params_scaled a_scales _ => params_scaled a_scales t
  | params_bias a_scales _ bias => params_bias a_scales t bias
  | params_azp a_scales _ azp_adj bias => params_azp a_scales t azp_adj bias
  | params_azp_token a_scales _ azp_adj azp bias =>
      params_azp_token a_scales t azp_adj azp bias
  end.

(** The arguments bound to the bias load: the third entry of the
    argument tuple of the root node. *)
Definition bias_args_of `{Numerics} (args : ArgumentType)
    : option ArgumentType :=
  match args with
  | args_evt [_; _; bias_args] => Some bias_args
  | _ => None
  end.

(** Tile shape and cluster shape of a configuration. *)
Definition tile_and_cluster (c : instantiation cutlass_3x_gemm.t)
    : option (Shape * Shape) :=
  match c with
  | Instantiated g =>
      Some (cutlass_3x_gemm.TileShape g, cutlass_3x_gemm.ClusterShape g)
  | CompileError => None
  end.

(** The compilation targets the guard lets through: [__CUDA_ARCH__]
    defined and at least 900. *)
Definition sm90_or_later (CUDA_ARCH : option Z) : Prop :=
  exists arch, CUDA_ARCH = Some arch /\ 900 <= arch.

(** A call of the entry point from an empty trace: how it ends and what
    it did, in order. *)
Definition call `{Num : Numerics} `{ML : Mainloop}
    (host : instantiation (Host unit))
    : option (outcome unit * list event) :=
  match host with
  | Instantiated h => Some (h [])
  | CompileError => None
  end.

Definition trace_of `{Num : Numerics} `{ML : Mainloop}
    (host : instantiation (Host unit)) : list event :=
  match call host with
  | Some (_, tr) => tr
  | None => []
  end.

(** A concrete call of the entry point: the default 8-bit integer
    configuration with the bias epilogue, a 2 x 4 compressed operand, its
    metadata, a dense 8 x 2 operand and a 2 x 2 output, against the
    stand-in engine. *)
Module SampleCall.

Definition Gemm : cutlass_3x_gemm.t :=
  cutlass_3x_gemm.make_default int8_t half_t ScaledEpilogueBias_
    (mkShape 128 128 128) (mkShape 2 1 1)
    KernelTmaWarpSpecializedPingpong TmaWarpSpecialized Tint32.

Definition a : Tensor (@operand Engine.mainloop) :=
  Engine.matrix 2 4 [1; 2; 3; 4; 5; 6; 7; 8].
Definition e : Tensor (@metadata Engine.mainloop) :=
  Engine.matrix 2 1 [68; 68].
Definition b : Tensor (@operand Engine.mainloop) :=
  mkTensor [8; 2] [1; 8] 0%nat [1; 0; 1; 0; 1; 0; 1; 0; 0; 1; 0; 1; 0; 1; 0; 1].
Definition out (x : spec_float) : Tensor (@ElementD IEEE.numerics) :=
  Engine.matrix 2 2 [x; x; x; x].

Definition params : @EpilogueParams IEEE.numerics :=
  params_bias Sample.a_scales Sample.b_scales Sample.bias.

(** The entry point on these tensors, for an adapter with the given
    answers. *)
Definition run_caller (implementable : Status) (workspace_size : Z)
    (launched : Status)
    : instantiation (@Host IEEE.numerics Engine.mainloop unit) :=
  cutlass_sparse_gemm_caller
    (Op := Engine.gemm_op implementable workspace_size launched)
    Gemm (out (IEEE.half_of 0 0)) a e b params.

End SampleCall.

(** The entry point performs no device allocation of its own. *)
Definition never_allocates `{Num : Numerics} `{ML : Mainloop}
    (host : instantiation (Host unit)) : Prop :=
  Forall (fun ev => is_allocation ev = false) (trace_of host).

(* ===================================================================== *)
(** ** Further notions used by the properties of the header *)
(* ===================================================================== *)

(** The element type of a value. *)
Definition type_of `{Numerics} (v : scalar) : Element :=
  match v with
  | Int32 _ => Tint32
  | Float _ => Tfloat
  | OutD _ => TElementD
  end.

(** Whether an instantiation went through. *)
Definition instantiates {A} (i : instantiation A) : bool :=
  match i with
  | Instantiated _ => true
  | CompileError => false
  end.

(** The entries of its tensors an epilogue looks at for the output
    coordinate [(m, n)]: what the A scale denotes at row [m], what the B
    scale denotes at column [n], and, where the epilogue has them, the
    zero point of row [m], the adjustment of column [n] and the bias of
    column [n]. *)
Definition reads `{Numerics} (p : EpilogueParams) (m n : nat)
    : list (option scalar) :=
  match p with
  | params_scaled a_scales b_scales =>
      [Float <$> Spec.value_at a_scales m; Float <$> Spec.value_at b_scales n]
  | params_bias a_scales b_scales bias =>
      [Float <$> Spec.value_at a_scales m; Float <$> Spec.value_at b_scales n;
       OutD <$> storage bias !! n]
  | params_azp a_scales b_scales azp_adj bias =>
      [Float <$> Spec.value_at a_scales m; Float <$> Spec.value_at b_scales n;
       Int32 <$> storage azp_adj !! n; OutD <$> Spec.bias_at bias n]
  | params_azp_token a_scales b_scales azp_adj azp bias =>
      [Float <$> Spec.value_at a_scales m; Float <$> Spec.value_at b_scales n;
       Int32 <$> storage azp !! m; Int32 <$> storage azp_adj !! n;
       OutD <$> Spec.bias_at bias n]
  end.

(** Further sample tensors: B scales that differ from [Sample.b_scales]
    everywhere but in column 1, and all-zero zero-point terms. *)
Module Sample2.

Definition b_scales : Tensor (@float IEEE.numerics) :=
  IEEE.vector [IEEE.dyadic 7 0; IEEE.dyadic 1 3; IEEE.dyadic 3 0].
Definition zero_adj : Tensor Z := IEEE.vector [0; 0].
Definition zero_azp : Tensor Z := IEEE.vector [0; 0].
Definition float_acc (num k : Z) : @scalar IEEE.numerics :=
  @Float IEEE.numerics (IEEE.dyadic num k).

End Sample2.

(** The accumulator type the kernel assembly used to derive from the
    operand type: [int32_t] for [int8_t] operands, [float] otherwise. *)
Definition ElementAcc_of (ElementAB : DType) : Element :=
  if DType_eqb ElementAB int8_t then Tint32 else Tfloat.

(** The configuration templates of the header, each with the operand
    type its [static_assert] names. *)
Definition configurations
    : list (DType * (DType -> DType -> EpilogueKind ->
                     instantiation cutlass_3x_gemm.t)) :=
  [(half_t, sm90_fp16_config_default);
   (bfloat16_t, sm90_bf16_config_default);
   (float_e4m3_t, sm90_fp8_config_default);
   (float_e4m3_t, sm90_fp8_config_M64);
   (float_e4m3_t, sm90_fp8_config_M128);
   (float_e4m3_t, sm90_fp8_config_M256);
   (float_e4m3_t, sm90_fp8_config_M512);
   (int8_t, sm90_int8_config_default);
   (int8_t, sm90_int8_config_M128);
   (int8_t, sm90_int8_config_M64);
   (int8_t, sm90_int8_config_M32_NBig);
   (int8_t, sm90_int8_config_M32_NSmall)].

(** Number of thread blocks in a cluster, and whether an extent is a
    positive multiple of 64. *)
Definition cluster_size (s : Shape) : Z := shape_0 s * shape_1 s * shape_2 s.

Definition multiple_of_64 (z : Z) : bool := (0 <? z) && (z mod 64 =? 0).

(** What every assembled kernel of the header has in common, for operand
    type [InType], output type [OutType] and epilogue [E]. *)
Definition well_assembled (InType OutType : DType) (E : EpilogueKind)
    (g : cutlass_3x_gemm.t) : Prop :=
  cutlass_3x_gemm.ElementAB g = InType
  /\ cutlass_3x_gemm.ElementD g = OutType
  /\ cutlass_3x_gemm.Epilogue g = E
  /\ cutlass_3x_gemm.ElementAcc g = ElementAcc_of InType
  /\ cutlass_3x_gemm.ElementC g = None
  /\ cutlass_3x_gemm.Mode g = kGemm
  /\ cutlass_3x_gemm.TileSchedule g = PersistentScheduler
  /\ multiple_of_64 (shape_0 (cutlass_3x_gemm.TileShape g)) = true
  /\ multiple_of_64 (shape_1 (cutlass_3x_gemm.TileShape g)) = true
  /\ multiple_of_64 (shape_2 (cutlass_3x_gemm.TileShape g)) = true
  /\ 1 <= cluster_size (cutlass_3x_gemm.ClusterShape g) <= 8.

(* ===================================================================== *)
(** ** The zero-point formula on an accumulator of either type *)
(* ===================================================================== *)

(** The per-tensor zero-point formula read for an accumulator of either
    type, the subtraction in the accumulator's own type: 32-bit integer
    subtraction for an integer accumulator, [float] subtraction of the
    adjustment converted to [float] for a floating-point one. *)
Definition ScaleBiasZP_PerTensor_native `{Numerics} (scaleA scaleB : float)
    (accum : Spec.Accumulator) (zpAdj : Z) (bias : ElementD) : ElementD :=
  match accum with
  | Spec.acc_int32 z => Spec.ScaleBiasZP_PerTensor scaleA scaleB z zpAdj bias
  | Spec.acc_float x =>
      ElementD_of_float
        (float_multiply_add scaleA
           (float_mul scaleB (float_sub x (float_of_int32 zpAdj)))
           (float_of_ElementD bias))
  end.

(** A zero or finite IEEE value as an integer times a power of two. *)
Definition dyadic_of (x : spec_float) : option (Z * Z) :=
  match x with
  | S754_zero _ => Some (0, 0)
  | S754_finite s m e => Some (cond_Zopp s (Zpos m), e)
  | _ => None
  end.

(** Whether [x] misses the reference [y] by more than the relative error
    1e-2, on zero or finite values. *)
Definition relative_error_exceeds_1e_2 (x y : spec_float) : bool :=
  match dyadic_of x, dyadic_of y with
  | Some (mx, ex), Some (my, ey) =>
      let e := Z.min ex ey in
      let X := mx * 2 ^ (ex - e) in
      let Y := my * 2 ^ (ey - e) in
      Z.abs Y <? 100 * Z.abs (X - Y)
  | _, _ => false
  end.

(** The per-tensor zero-point epilogue meets its formula within the
    tolerance at [(m, n)], on the IEEE arithmetic, for an accumulator of
    either type. *)
Definition per_tensor_formula_within_tolerance
    (a_scales b_scales : Tensor (@float IEEE.numerics)) (azp_adj : Tensor Z)
    (bias : option (Tensor (@ElementD IEEE.numerics)))
    (accum : @Spec.Accumulator IEEE.numerics)
    (src : option (@scalar IEEE.numerics)) (m n : nat) : Prop :=
  forall scaleA scaleB zpAdj bias_n,
    Spec.value_at a_scales m = Some scaleA ->
    Spec.value_at b_scales n = Some scaleB ->
    storage azp_adj !! n = Some zpAdj ->
    Spec.bias_at bias n = Some bias_n ->
    exists d,
      epilogue_output (params_azp a_scales b_scales azp_adj bias)
        (Spec.acc accum) src m n
      = Instantiated (Some (@OutD IEEE.numerics d))
      /\ relative_error_exceeds_1e_2 d
           (@ScaleBiasZP_PerTensor_native IEEE.numerics scaleA scaleB accum
              zpAdj bias_n)
         = false.
(* ===================================================================== *)
(** ** Facts about the model *)
(* ===================================================================== *)

(** Within the range of [int32_t] nothing wraps. *)
Lemma Int32_wrap_in_range (z : Z) : Int32.in_range z -> Int32.wrap z = z.
Proof.
  unfold Int32.in_range, Int32.wrap, Int32.min_signed, Int32.max_signed,
    Int32.half_modulus, Int32.modulus.
  intros Hz. rewrite Z.mod_small by lia. lia.
Qed.

(** The zero-point correction is the mathematical
    accum - zp * zpAdj as long as the product and the difference fit
    [int32_t]. *)
Lemma Int32_correction_exact (accum zp zpAdj : Z) :
  Int32.in_range (zp * zpAdj) ->
  Int32.in_range (accum - zp * zpAdj) ->
  Int32.sub accum (Int32.mul zp zpAdj) = accum - zp * zpAdj.
Proof.
  intros Hmul Hsub. unfold Int32.sub, Int32.mul.
  rewrite (Int32_wrap_in_range _ Hmul). apply Int32_wrap_in_range, Hsub.
Qed.

Section Facts.

Context `{Num : Numerics}.

Lemma Element_eqb_refl (T : Element) : Element_eqb T T = true.
Proof. destruct T; reflexivity. Qed.

(** An "or scalar" load fed by [args_from_tensor] reads what the
    descriptor of the tensor denotes. *)
Lemma load_ColOrScalar (T : Element) (t : Tensor (val T)) (m n : nat) :
  load (ColOrScalarLoad T)
       (args_ptr_flag T (data_ptr t) (negb (numel t =? 1))) m n
  = inj T <$> Spec.value_at t m.
Proof.
  unfold load, Spec.value_at, deref, data_ptr.
  rewrite Element_eqb_refl.
  destruct (numel t =? 1); reflexivity.
Qed.

Lemma load_RowOrScalar (T : Element) (t : Tensor (val T)) (m n : nat) :
  load (RowOrScalarLoad T)
       (args_ptr_flag T (data_ptr t) (negb (numel t =? 1))) m n
  = inj T <$> Spec.value_at t n.
Proof.
  unfold load, Spec.value_at, deref, data_ptr.
  rewrite Element_eqb_refl.
  destruct (numel t =? 1); reflexivity.
Qed.

(** A plain load of a tensor reads its storage. *)
Lemma load_Col (T : Element) (nullable : bool) (t : Tensor (val T))
    (m n : nat) :
  load (ColLoad T nullable) (args_ptr T (data_ptr t)) m n
  = inj T <$> storage t !! m.
Proof.
  unfold load, deref, data_ptr. rewrite Element_eqb_refl.
  destruct nullable; reflexivity.
Qed.

Lemma load_Row (T : Element) (nullable : bool) (t : Tensor (val T))
    (m n : nat) :
  load (RowLoad T nullable) (args_ptr T (data_ptr t)) m n
  = inj T <$> storage t !! n.
Proof.
  unfold load, deref, data_ptr. rewrite Element_eqb_refl.
  destruct nullable; reflexivity.
Qed.

(** The nullable bias load of the zero-point epilogues reads the value of
    the optional bias. *)
Lemma load_optional_bias (bias : option (Tensor ElementD)) (m n : nat) :
  load (RowLoad TElementD true)
       (args_ptr TElementD
          (match bias with Some t => data_ptr t | None => nullptr end)) m n
  = OutD <$> Spec.bias_at bias n.
Proof.
  destruct bias as [t|]; [apply (load_Row TElementD true t)|reflexivity].
Qed.

(** The children of a node are visited by [visit_children]. *)
Lemma visit_Sm90EVT (NodeOp : Sm90Compute) (ChildOps : list EVT)
    (args : ArgumentType) (accum : scalar) (src : option scalar)
    (m n : nat) :
  visit (Sm90EVT NodeOp ChildOps) args accum src m n
  = l ← child_args args;
    vs ← visit_children ChildOps l accum src m n;
    compute NodeOp vs.
Proof.
  cbn [visit]. destruct (child_args args) as [l|]; [|reflexivity].
  cbn [mbind option_bind]. f_equal.
  revert l. induction ChildOps as [|t ts IH]; intros l; [reflexivity|].
  cbn [visit_children]. rewrite IH. reflexivity.
Qed.

End Facts.

(* ===================================================================== *)
(** ** The epilogue formulas *)
(* ===================================================================== *)

Section Formula_lemmas.

Context `{Num : Numerics}.

Lemma ScaledEpilogue_output a_scales b_scales accum src m n scaleA scaleB :
  Spec.value_at a_scales m = Some scaleA ->
  Spec.value_at b_scales n = Some scaleB ->
  epilogue_output (params_scaled a_scales b_scales) (Spec.acc accum) src m n
  = Instantiated (Some (OutD (Spec.ScaleOnly scaleA scaleB accum))).
Proof.
  intros HA HB. unfold epilogue_output, Spec.value_at in *. cbn.
  destruct (numel a_scales =? 1), (numel b_scales =? 1); cbn in *;
    rewrite HA, HB; destruct accum; reflexivity.
Qed.

Lemma ScaledEpilogueBias_output a_scales b_scales bias accum src m n
    scaleA scaleB bias_n :
  Spec.value_at a_scales m = Some scaleA ->
  Spec.value_at b_scales n = Some scaleB ->
  storage bias !! n = Some bias_n ->
  epilogue_output (params_bias a_scales b_scales bias) (Spec.acc accum)
    src m n
  = Instantiated (Some (OutD (Spec.ScaleBias scaleA scaleB accum bias_n))).
Proof.
  intros HA HB Hbias. unfold epilogue_output, Spec.value_at in *. cbn.
  destruct (numel a_scales =? 1), (numel b_scales =? 1); cbn in *;
    rewrite HA, HB; cbn; rewrite Hbias; destruct accum; reflexivity.
Qed.

Lemma ScaledEpilogueBiasAzp_output a_scales b_scales azp_adj bias accum src
    m n scaleA scaleB zpAdj bias_n :
  Spec.value_at a_scales m = Some scaleA ->
  Spec.value_at b_scales n = Some scaleB ->
  storage azp_adj !! n = Some zpAdj ->
  Spec.bias_at bias n = Some bias_n ->
  epilogue_output (params_azp a_scales b_scales azp_adj bias) (Int32 accum)
    src m n
  = Instantiated
      (Some (OutD (Spec.ScaleBiasZP_PerTensor scaleA scaleB accum zpAdj
                     bias_n))).
Proof.
  intros HA HB Hadj Hbias.
  unfold epilogue_output, Spec.value_at, Spec.bias_at in *. cbn.
  destruct (numel a_scales =? 1), (numel b_scales =? 1); cbn in *;
    rewrite HA, HB; cbn; rewrite Hadj; cbn;
    destruct bias; cbn; simplify_eq; try rewrite Hbias; reflexivity.
Qed.

Lemma ScaledEpilogueBiasAzpToken_output a_scales b_scales azp_adj azp bias
    accum src m n scaleA scaleB zp zpAdj bias_n :
  Spec.value_at a_scales m = Some scaleA ->
  Spec.value_at b_scales n = Some scaleB ->
  storage azp !! m = Some zp ->
  storage azp_adj !! n = Some zpAdj ->
  Spec.bias_at bias n = Some bias_n ->
  epilogue_output (params_azp_token a_scales b_scales azp_adj azp bias)
    (Int32 accum) src m n
  = Instantiated
      (Some (OutD (Spec.ScaleBiasZP_PerToken scaleA scaleB accum zp zpAdj
                     bias_n))).
Proof.
  intros HA HB Hzp Hadj Hbias.
  unfold epilogue_output, Spec.value_at, Spec.bias_at in *. cbn.
  destruct (numel a_scales =? 1), (numel b_scales =? 1); cbn in *;
    rewrite HA, HB; cbn; rewrite Hzp, Hadj; cbn;
    destruct bias; cbn; simplify_eq; try rewrite Hbias; reflexivity.
Qed.

End Formula_lemmas.

(** C1, amended. Each of the four epilogues computes its formula, for
    every input whose descriptors denote values at [(m, n)]: ScaleOnly
    and ScaleBias for every accumulator, integer or floating-point;
    ScaleBiasZP-PerTensor and ScaleBiasZP-PerToken for every 32-bit
    integer accumulator.  The output element is the direct evaluation of
    the formula in the arithmetic of the device: equal bit for bit, and
    so within every tolerance. *)
Theorem epilogue_formulas `{Num : Numerics} :
  (forall a_scales b_scales accum src m n scaleA scaleB,
      Spec.value_at a_scales m = Some scaleA ->
      Spec.value_at b_scales n = Some scaleB ->
      epilogue_output (params_scaled a_scales b_scales) (Spec.acc accum)
        src m n
      = Instantiated (Some (OutD (Spec.ScaleOnly scaleA scaleB accum))))
  /\
  (forall a_scales b_scales bias accum src m n scaleA scaleB bias_n,
      Spec.value_at a_scales m = Some scaleA ->
      Spec.value_at b_scales n = Some scaleB ->
      storage bias !! n = Some bias_n ->
      epilogue_output (params_bias a_scales b_scales bias) (Spec.acc accum)
        src m n
      = Instantiated (Some (OutD (Spec.ScaleBias scaleA scaleB accum bias_n))))
  /\
  (forall a_scales b_scales azp_adj bias accum src m n
          scaleA scaleB zpAdj bias_n,
      Spec.value_at a_scales m = Some scaleA ->
      Spec.value_at b_scales n = Some scaleB ->
      storage azp_adj !! n = Some zpAdj ->
      Spec.bias_at bias n = Some bias_n ->
      epilogue_output (params_azp a_scales b_scales azp_adj bias)
        (Int32 accum) src m n
      = Instantiated
          (Some (OutD (Spec.ScaleBiasZP_PerTensor scaleA scaleB accum zpAdj
                         bias_n))))
  /\
  (forall a_scales b_scales azp_adj azp bias accum src m n
          scaleA scaleB zp zpAdj bias_n,
      Spec.value_at a_scales m = Some scaleA ->
      Spec.value_at b_scales n = Some scaleB ->
      storage azp !! m = Some zp ->
      storage azp_adj !! n = Some zpAdj ->
      Spec.bias_at bias n = Some bias_n ->
      epilogue_output (params_azp_token a_scales b_scales azp_adj azp bias)
        (Int32 accum) src m n
      = Instantiated
          (Some (OutD (Spec.ScaleBiasZP_PerToken scaleA scaleB accum zp zpAdj
                         bias_n)))).
Proof.
  split; [|split; [|split]]; intros.
  - by apply ScaledEpilogue_output.
  - by apply ScaledEpilogueBias_output.
  - by apply ScaledEpilogueBiasAzp_output.
  - by apply ScaledEpilogueBiasAzpToken_output.
Qed.


Lemma epilogue_formulas_witness :
  epilogue_output (params_scaled Sample.a_scales Sample.b_scales)
    (Sample.int32 7) None 0 1
  = Instantiated (Some (Sample.out 7 4))
  /\
  epilogue_output (params_bias Sample.a_scales Sample.b_scales Sample.bias)
    (Sample.int32 7) None 0 1
  = Instantiated (Some (Sample.out 31 4))
  /\
  epilogue_output
    (params_azp Sample.a_scales Sample.b_scales Sample.azp_adj
       (Some Sample.bias)) (Sample.int32 100) None 1 1
  = Instantiated (Some (Sample.out 13 1))
  /\
  epilogue_output
    (params_azp_token Sample.a_scales Sample.b_scales Sample.azp_adj
       Sample.azp None) (Sample.int32 100) None 1 1
  = Instantiated (Some (Sample.out 0 0)).
Proof.
  destruct (epilogue_formulas (Num := IEEE.numerics)) as (H1 & H2 & H3 & H4).
  split; [|split; [|split]].
  - apply (H1 Sample.a_scales Sample.b_scales (Spec.acc_int32 7) None
              0%nat 1%nat (IEEE.dyadic 1 1) (IEEE.dyadic 1 3));
      reflexivity.
  - apply (H2 Sample.a_scales Sample.b_scales Sample.bias (Spec.acc_int32 7)
              None 0%nat 1%nat (IEEE.dyadic 1 1) (IEEE.dyadic 1 3)
              (IEEE.half_of 3 1));
      reflexivity.
  - apply (H3 Sample.a_scales Sample.b_scales Sample.azp_adj
              (Some Sample.bias) 100 None 1%nat 1%nat (IEEE.dyadic 1 1)
              (IEEE.dyadic 1 3) 20 (IEEE.half_of 3 1));
      reflexivity.
  - apply (H4 Sample.a_scales Sample.b_scales Sample.azp_adj Sample.azp None
              100 None 1%nat 1%nat (IEEE.dyadic 1 1) (IEEE.dyadic 1 3) 5 20
              (S754_zero false));
      reflexivity.
Defined.

(** C1, as the specification has it, fails for a floating-point
    accumulator in a zero-point epilogue: with scales 1/2 and 1/8, a zero
    adjustment, no bias and the accumulator 3/2, the per-tensor epilogue
    yields 1/8, the formula 3/32: the subtraction node converts the
    accumulator to [int32_t] first, and 3/2 becomes 2. *)
Lemma zero_point_formula_fails_on_float_accumulator :
  epilogue_output
    (params_azp Sample.a_scales Sample.b_scales Sample2.zero_adj None)
    (Sample2.float_acc 3 1) None 0 1
  = Instantiated (Some (Sample.out 1 3))
  /\
  @ScaleBiasZP_PerTensor_native IEEE.numerics (IEEE.dyadic 1 1)
    (IEEE.dyadic 1 3) (@Spec.acc_float IEEE.numerics (IEEE.dyadic 3 1)) 0 (S754_zero false)
  = IEEE.half_of 3 5
  /\
  ~ per_tensor_formula_within_tolerance Sample.a_scales Sample.b_scales
      Sample2.zero_adj None (@Spec.acc_float IEEE.numerics (IEEE.dyadic 3 1)) None 0 1.
Proof.
  split; [reflexivity|]. split; [reflexivity|].
  intros Hclaim.
  destruct (Hclaim (IEEE.dyadic 1 1) (IEEE.dyadic 1 3) 0 (S754_zero false)
              eq_refl eq_refl eq_refl eq_refl) as (d & Hout & Htol).
  assert (Hd : d = IEEE.half_of 1 3).
  { change (Instantiated (Some (Sample.out 1 3))
            = Instantiated (Some (@OutD IEEE.numerics d))) in Hout.
    unfold Sample.out in Hout. injection Hout as <-. reflexivity. }
  subst d.
  change (relative_error_exceeds_1e_2 (IEEE.half_of 1 3) (IEEE.half_of 3 5)
          = false) in Htol.
  vm_compute in Htol. discriminate Htol.
Qed.

(* ===================================================================== *)
(** ** Zero-point and broadcast equivalences *)
(* ===================================================================== *)


(** C4. Zero-point equivalence: when every entry of the per-row zero
    point [azp] is the same constant [z], the per-token epilogue yields,
    at every row [m] of [azp] and every column, what the per-tensor
    epilogue yields on the adjustment scaled elementwise by [z]. *)
Theorem zero_point_equivalence `{Num : Numerics}
    (a_scales b_scales : Tensor float) (azp_adj azp : Tensor Z)
    (bias : option (Tensor ElementD)) (accum : scalar)
    (src : option scalar) (z : Z) (m n : nat) :
  (forall k zp, storage azp !! k = Some zp -> zp = z) ->
  (m < length (storage azp))%nat ->
  epilogue_output (params_azp_token a_scales b_scales azp_adj azp bias)
    accum src m n
  = epilogue_output (params_azp a_scales b_scales (scale_by z azp_adj) bias)
      accum src m n.
Proof.
  intros Hconst Hm.
  destruct (lookup_lt_is_Some_2 _ _ Hm) as [zp Hzp].
  assert (zp = z) by (eapply Hconst; eassumption); subst zp.
  unfold epilogue_output. cbn.
  rewrite Hzp, list_lookup_fmap.
  destruct (storage a_scales !! _); [|reflexivity].
  destruct (storage b_scales !! _); [|reflexivity].
  destruct (storage azp_adj !! n); [|reflexivity].
  destruct accum; reflexivity.
Qed.

Lemma zero_point_equivalence_witness :
  epilogue_output
    (params_azp_token Sample.a_scales Sample.b_scales Sample.azp_adj
       (IEEE.vector [3; 3]) (Some Sample.bias)) (Sample.int32 100) None 1 1
  = epilogue_output
      (params_azp Sample.a_scales Sample.b_scales
         (scale_by 3 Sample.azp_adj) (Some Sample.bias))
      (Sample.int32 100) None 1 1.
Proof.
  apply (zero_point_equivalence (Num := IEEE.numerics)).
  - intros [|[|k]] zp Hk; vm_compute in Hk; congruence.
  - cbn. lia.
Defined.

Section Broadcast_lemmas.

Context `{Num : Numerics}.

(** A vector whose entries all equal [c] denotes [c] at each of its
    indices, whatever its element count. *)
Lemma constant_vector_lookup {A} (v : Tensor A) (c : A) (k : nat) :
  (forall i x, storage v !! i = Some x -> x = c) ->
  (k < length (storage v))%nat ->
  storage v !! (if negb (numel v =? 1) then k else 0%nat) = Some c.
Proof.
  intros Hconst Hk.
  assert (Hlt : ((if negb (numel v =? 1)%Z then k else 0%nat)
                 < length (storage v))%nat)
    by (destruct (negb (numel v =? 1)); lia).
  destruct (lookup_lt_is_Some_2 _ _ Hlt) as [x Hx].
  rewrite Hx. f_equal. eapply Hconst; eassumption.
Qed.

(** A descriptor of element count one denotes its one value. *)
Lemma scalar_lookup {A} (s : Tensor A) (k : nat) :
  numel s = 1 ->
  storage s !! (if negb (numel s =? 1) then k else 0%nat) = storage s !! 0%nat.
Proof. intros ->. reflexivity. Qed.

End Broadcast_lemmas.

(** C5. Broadcast equivalence: in every epilogue, a per-row vector
    [a_scales], or a per-column vector [b_scales], whose entries all equal
    [c] can be replaced by a descriptor of element count one holding [c]
    without changing the output; [args_from_tensor] derives the flag of a
    scale from [numel] alone, and a scale of element count one is read as
    a scalar at every coordinate, whatever its extents. *)
Theorem broadcast_equivalence `{Num : Numerics} :
  (forall p (v s : Tensor float) c accum src m n,
      (forall i x, storage v !! i = Some x -> x = c) ->
      (m < length (storage v))%nat ->
      numel s = 1 -> storage s !! 0%nat = Some c ->
      epilogue_output (with_a_scales p v) accum src m n
      = epilogue_output (with_a_scales p s) accum src m n)
  /\
  (forall p (v s : Tensor float) c accum src m n,
      (forall i x, storage v !! i = Some x -> x = c) ->
      (n < length (storage v))%nat ->
      numel s = 1 -> storage s !! 0%nat = Some c ->
      epilogue_output (with_b_scales p v) accum src m n
      = epilogue_output (with_b_scales p s) accum src m n)
  /\
  (forall D (t : Tensor float),
      is_OrScalarLoad D Tfloat = true ->
      args_from_tensor D Tfloat t
      = Instantiated (args_ptr_flag Tfloat (data_ptr t)
                        (negb (numel t =? 1))))
  /\
  (forall D (t : Tensor float) args m n,
      is_OrScalarLoad D Tfloat = true ->
      args_from_tensor D Tfloat t = Instantiated args ->
      numel t = 1 ->
      load D args m n = Float <$> storage t !! 0%nat).
Proof.
  split; [|split; [|split]].
  - intros p v s c accum src m n Hconst Hm Hs Hc.
    pose proof (constant_vector_lookup v c m Hconst Hm) as Hv.
    pose proof (scalar_lookup s m Hs) as Hs'. rewrite Hc in Hs'.
    unfold epilogue_output. destruct p; cbn; rewrite Hv, Hs'; reflexivity.
  - intros p v s c accum src m n Hconst Hn Hs Hc.
    pose proof (constant_vector_lookup v c n Hconst Hn) as Hv.
    pose proof (scalar_lookup s n Hs) as Hs'. rewrite Hc in Hs'.
    unfold epilogue_output. destruct p; cbn; rewrite Hv, Hs'; reflexivity.
  - intros D t HD. unfold args_from_tensor. rewrite HD. reflexivity.
  - intros D t args m n HD Hargs Ht.
    unfold args_from_tensor in Hargs. rewrite HD in Hargs.
    injection Hargs as <-.
    destruct D as [T|T|T b|T b]; cbn in HD; try discriminate;
      destruct T; try discriminate; cbn; rewrite Ht; reflexivity.
Qed.

Lemma broadcast_equivalence_witness :
  (epilogue_output
     (with_a_scales
        (params_bias Sample.a_scales Sample.b_scales Sample.bias)
        Sample.constant_scales)
     (Sample.int32 7) None 1 1
   = epilogue_output
       (with_a_scales
          (params_bias Sample.a_scales Sample.b_scales Sample.bias)
          Sample.scalar_scale)
       (Sample.int32 7) None 1 1)
  /\
  (epilogue_output
     (with_b_scales
        (params_scaled Sample.a_scales Sample.b_scales)
        Sample.constant_scales)
     (Sample.int32 7) None 1 1
   = epilogue_output
       (with_b_scales
          (params_scaled Sample.a_scales Sample.b_scales)
          Sample.scalar_scale)
       (Sample.int32 7) None 1 1)
  /\
  load (RowOrScalarLoad Tfloat)
       (@args_ptr_flag IEEE.numerics Tfloat (data_ptr Sample.scalar_scale)
          false) 5 9
  = Some (@Float IEEE.numerics (IEEE.dyadic 3 2)).
Proof.
  destruct (broadcast_equivalence (Num := IEEE.numerics))
    as (HA & HB & HC & HD).
  split; [|split].
  - apply (HA _ _ _ (IEEE.dyadic 3 2)); try reflexivity.
    + intros [|[|k]] x Hk; vm_compute in Hk; inversion Hk; reflexivity.
    + cbn. lia.
  - apply (HB _ _ _ (IEEE.dyadic 3 2)); try reflexivity.
    + intros [|[|k]] x Hk; vm_compute in Hk; inversion Hk; reflexivity.
    + cbn. lia.
  - apply (HD (RowOrScalarLoad Tfloat) Sample.scalar_scale); reflexivity.
Defined.

(* ===================================================================== *)
(** ** Order of the arithmetic in the zero-point epilogues *)
(* ===================================================================== *)



(** On the IEEE arithmetic the order matters: converting the accumulator
    2^24 + 1 to [float] before subtracting 1 loses the unit, subtracting
    in [int32_t] first does not. *)
Example subtract_then_convert_differs :
  IEEE.of_int32 (Int32.sub 16777217 1)
  <> SFsub IEEE.prec32 IEEE.emax32 (IEEE.of_int32 16777217) (IEEE.of_int32 1).
Proof. vm_compute. discriminate. Qed.

(* ===================================================================== *)
(** ** The optional bias *)
(* ===================================================================== *)

(** C9. The bias is optional for the two zero-point epilogues and
    mandatory for [ScaledEpilogueBias]: with no bias the zero-point
    epilogues bind a null pointer to their bias load, that load yields
    the constant 0 at every coordinate and the output is the formula on a
    zero bias; [ScaledEpilogueBias] takes a tensor and binds its data,
    its bias load does not instantiate from an optional tensor and
    yields nothing on a null pointer. *)
Theorem optional_bias `{Num : Numerics} :
  (forall a_scales b_scales azp_adj,
      exists args,
        ScaledEpilogueBiasAzp.prepare_args a_scales b_scales azp_adj None
        = Instantiated args
        /\ bias_args_of args = Some (args_ptr TElementD nullptr))
  /\
  (forall a_scales b_scales azp_adj azp,
      exists args,
        ScaledEpilogueBiasAzpToken.prepare_args a_scales b_scales azp_adj azp
          None
        = Instantiated args
        /\ bias_args_of args = Some (args_ptr TElementD nullptr))
  /\
  (forall m n,
      load ScaledEpilogueBiasAzp.Bias (args_ptr TElementD nullptr) m n
      = Some (OutD ElementD_zero)
      /\
      load ScaledEpilogueBiasAzpToken.Bias (args_ptr TElementD nullptr) m n
      = Some (OutD ElementD_zero))
  /\
  (forall a_scales b_scales azp_adj accum src m n scaleA scaleB zpAdj,
      Spec.value_at a_scales m = Some scaleA ->
      Spec.value_at b_scales n = Some scaleB ->
      storage azp_adj !! n = Some zpAdj ->
      epilogue_output (params_azp a_scales b_scales azp_adj None)
        (Int32 accum) src m n
      = Instantiated
          (Some (OutD (Spec.ScaleBiasZP_PerTensor scaleA scaleB accum zpAdj
                         ElementD_zero))))
  /\
  (forall a_scales b_scales azp_adj azp accum src m n scaleA scaleB zp zpAdj,
      Spec.value_at a_scales m = Some scaleA ->
      Spec.value_at b_scales n = Some scaleB ->
      storage azp !! m = Some zp ->
      storage azp_adj !! n = Some zpAdj ->
      epilogue_output (params_azp_token a_scales b_scales azp_adj azp None)
        (Int32 accum) src m n
      = Instantiated
          (Some (OutD (Spec.ScaleBiasZP_PerToken scaleA scaleB accum zp zpAdj
                         ElementD_zero))))
  /\
  (forall a_scales b_scales bias,
      exists args,
        ScaledEpilogueBias.prepare_args a_scales b_scales bias
        = Instantiated args
        /\ bias_args_of args = Some (args_ptr TElementD (data_ptr bias))
        /\ data_ptr bias <> nullptr)
  /\
  (forall bias,
      args_from_optional_tensor ScaledEpilogueBias.Bias TElementD bias
      = CompileError)
  /\
  (forall m n,
      load ScaledEpilogueBias.Bias (args_ptr TElementD nullptr) m n = None).
Proof.
  split; [|split; [|split; [|split; [|split; [|split; [|split]]]]]].
  - intros. eexists. split; reflexivity.
  - intros. eexists. split; reflexivity.
  - intros. split; reflexivity.
  - intros. by apply ScaledEpilogueBiasAzp_output.
  - intros. by apply ScaledEpilogueBiasAzpToken_output.
  - intros. eexists. repeat split. discriminate.
  - intros. reflexivity.
  - intros. reflexivity.
Qed.

Lemma optional_bias_witness :
  epilogue_output
    (params_azp Sample.a_scales Sample.b_scales Sample.azp_adj None)
    (Sample.int32 100) None 1 1
  = Instantiated (Some (Sample.out 5 0))
  /\
  epilogue_output
    (params_azp_token Sample.a_scales Sample.b_scales Sample.azp_adj
       Sample.azp None) (Sample.int32 104) None 0 1
  = Instantiated (Some (Sample.out 11 2)).
Proof.
  destruct (optional_bias (Num := IEEE.numerics))
    as (_ & _ & _ & H4 & H5 & _).
  split.
  - apply (H4 Sample.a_scales Sample.b_scales Sample.azp_adj 100 None
              1%nat 1%nat (IEEE.dyadic 1 1) (IEEE.dyadic 1 3) 20);
      reflexivity.
  - apply (H5 Sample.a_scales Sample.b_scales Sample.azp_adj Sample.azp 104
              None 0%nat 1%nat (IEEE.dyadic 1 1) (IEEE.dyadic 1 3) 3 20);
      reflexivity.
Defined.

(* ===================================================================== *)
(** ** The output does not depend on its prior contents *)
(* ===================================================================== *)

(** Induction on visitor trees, with the hypothesis for every child. *)
Lemma EVT_nested_ind (P : EVT -> Prop) :
  P Sm90AccFetch ->
  P Sm90SrcFetch ->
  (forall D, P (Sm90Load D)) ->
  (forall NodeOp ChildOps, Forall P ChildOps -> P (Sm90EVT NodeOp ChildOps)) ->
  forall t, P t.
Proof.
  intros HAcc HSrc HLoad HEVT. fix IH 1. intros [| |D|NodeOp ChildOps].
  - exact HAcc.
  - exact HSrc.
  - apply HLoad.
  - apply HEVT. induction ChildOps as [|t ts IHts]; constructor.
    + apply IH.
    + exact IHts.
Qed.

(** A tree without [Sm90SrcFetch] yields the same element whatever the
    source operand holds. *)
Lemma visit_source_irrelevant `{Num : Numerics} (t : EVT) :
  reads_source t = false ->
  forall args accum src1 src2 m n,
    visit t args accum src1 m n = visit t args accum src2 m n.
Proof.
  induction t as [| |D|NodeOp ChildOps IH] using EVT_nested_ind;
    intros Hsrc args accum src1 src2 m n.
  - reflexivity.
  - discriminate.
  - reflexivity.
  - rewrite !visit_Sm90EVT.
    destruct (child_args args) as [l|]; [|reflexivity].
    cbn [mbind option_bind]. f_equal.
    cbn [reads_source] in Hsrc. revert l.
    induction IH as [|t ts Ht _ IHts]; intros l; [reflexivity|].
    cbn [existsb] in Hsrc. apply orb_false_iff in Hsrc as [Hs1 Hs2].
    cbn [visit_children].
    rewrite (Ht Hs1 (hd args_default l) accum src1 src2 m n).
    rewrite (IHts Hs2 (tl l)). reflexivity.
Qed.

(** C10. The output is a pure overwrite: the kernel assembly declares no
    source operand ([ElementC] is [void]), the entry point passes the
    output pointer for C as well as for D, no epilogue tree fetches the
    source, and for two invocations that differ only in the output tensor
    handed in, the kernel computes the same element of D at every
    coordinate. *)
Theorem output_is_pure_overwrite `{Num : Numerics} `{ML : Mainloop}
    `{Op : !GemmOp} :
  (forall AB D E tile cluster ks es acc ts mode,
      cutlass_3x_gemm.ElementC
        (cutlass_3x_gemm.make AB D E tile cluster ks es acc ts mode) = None)
  /\
  (forall Gemm out a e b p args,
      make_arguments Gemm out a e b p = Instantiated args ->
      ptr_C (epilogue args) = data_ptr out
      /\ ptr_D (epilogue args) = data_ptr out
      /\ dC (epilogue args) = dD (epilogue args))
  /\
  (forall E, reads_source (EVTCompute E) = false)
  /\
  (forall Gemm out1 out2 a e b p args1 args2 m n,
      make_arguments Gemm out1 a e b p = Instantiated args1 ->
      make_arguments Gemm out2 a e b p = Instantiated args2 ->
      kernel_D Gemm args1 m n = kernel_D Gemm args2 m n).
Proof.
  split; [|split; [|split]].
  - reflexivity.
  - intros Gemm out a e b p args Hargs. unfold make_arguments in Hargs.
    destruct (prepare_args _ p) as [thread_args|]; [|discriminate].
    cbn in Hargs. injection Hargs as <-. repeat split.
  - intros []; reflexivity.
  - intros Gemm out1 out2 a e b p args1 args2 m n H1 H2.
    unfold make_arguments in H1, H2.
    destruct (prepare_args _ p) as [thread_args|]; [|discriminate].
    cbn in H1, H2. injection H1 as <-. injection H2 as <-.
    unfold kernel_D. cbn [epilogue thread mainloop problem_shape].
    apply visit_source_irrelevant. destruct (cutlass_3x_gemm.Epilogue Gemm);
      reflexivity.
Qed.

Lemma output_is_pure_overwrite_witness :
  exists args1 args2,
    make_arguments
      SampleCall.Gemm (SampleCall.out (IEEE.half_of 0 0))
      SampleCall.a SampleCall.e SampleCall.b SampleCall.params
    = Instantiated args1
    /\
    make_arguments
      SampleCall.Gemm (SampleCall.out (IEEE.half_of 9 0))
      SampleCall.a SampleCall.e SampleCall.b SampleCall.params
    = Instantiated args2
    /\ args1 <> args2
    /\ kernel_D (Op := Engine.gemm_op kSuccess 1024 kSuccess)
         SampleCall.Gemm args1 1 1
       = kernel_D (Op := Engine.gemm_op kSuccess 1024 kSuccess)
           SampleCall.Gemm args2 1 1.
Proof.
  eexists. eexists. split; [reflexivity|]. split; [reflexivity|]. split.
  - intros Heq.
    apply (f_equal (fun args => ptr_D (epilogue args))) in Heq.
    cbn in Heq. discriminate Heq.
  - refine (proj2 (proj2 (proj2
      (output_is_pure_overwrite
         (Op := Engine.gemm_op kSuccess 1024 kSuccess))))
      SampleCall.Gemm (SampleCall.out (IEEE.half_of 0 0))
      (SampleCall.out (IEEE.half_of 9 0)) SampleCall.a SampleCall.e
      SampleCall.b SampleCall.params _ _ 1%nat 1%nat _ _); reflexivity.
Defined.

(* ===================================================================== *)
(** ** The execution guard *)
(* ===================================================================== *)

(** C7. The guarded [operator()] calls the wrapped kernel if and only if
    the compilation target is sm90 or later; there it does what the
    kernel does, and for any older target (or where [__CUDA_ARCH__] is
    not defined) its body is empty and it leaves every state as it
    is. *)
Theorem guard_is_noop_below_sm90 (Args State : Type)
    (CUDA_ARCH : option Z) (Kernel_operator : Args -> State -> State)
    (args : Args) (s : State) :
  (In call_Kernel_operator (enable_sm90_or_later.operator_body CUDA_ARCH)
   <-> sm90_or_later CUDA_ARCH)
  /\
  (sm90_or_later CUDA_ARCH ->
   enable_sm90_or_later.operator CUDA_ARCH Kernel_operator args s
   = Kernel_operator args s)
  /\
  (~ sm90_or_later CUDA_ARCH ->
   enable_sm90_or_later.operator_body CUDA_ARCH = []
   /\ enable_sm90_or_later.operator CUDA_ARCH Kernel_operator args s = s).
Proof.
  unfold sm90_or_later, enable_sm90_or_later.operator,
    enable_sm90_or_later.operator_body.
  destruct CUDA_ARCH as [arch|].
  - destruct (Z.leb_spec 900 arch) as [Hge|Hlt]; cbn.
    + split; [|split].
      * split; [intros _; exists arch; split; [reflexivity|exact Hge]|].
        intros _. left. reflexivity.
      * reflexivity.
      * intros Hnot. exfalso. apply Hnot. exists arch. split; [reflexivity|lia].
    + split; [|split].
      * split; [intros []|]. intros (arch' & [= <-] & Hge). lia.
      * intros (arch' & [= <-] & Hge). lia.
      * intros _. split; reflexivity.
  - cbn. split; [|split].
    + split; [intros []|]. intros (arch' & Heq & _). discriminate.
    + intros (arch' & Heq & _). discriminate.
    + intros _. split; reflexivity.
Qed.

Lemma guard_is_noop_below_sm90_witness :
  enable_sm90_or_later.operator (Some 900) (fun (k : Z) (s : list Z) => k :: s)
    7 [1]
  = [7; 1]
  /\
  enable_sm90_or_later.operator (Some 890) (fun (k : Z) (s : list Z) => k :: s)
    7 [1]
  = [1].
Proof.
  split.
  - apply (proj1 (proj2 (guard_is_noop_below_sm90 Z (list Z) (Some 900)
                           (fun k s => k :: s) 7 [1]))).
    exists 900. split; [reflexivity|lia].
  - apply (proj2 (proj2 (guard_is_noop_below_sm90 Z (list Z) (Some 890)
                           (fun k s => k :: s) 7 [1]))).
    intros (arch & [= <-] & Hge). lia.
Defined.

(* ===================================================================== *)
(** ** Configuration selection, 8-bit integers *)
(* ===================================================================== *)

(** C2. For 8-bit integer operands the selector yields, for each (M, N),
    the documented tile and cluster: M <= 32 with N >= 8192 gives tile
    64x128x256 and a 4-way cluster along N; M <= 32 with N < 8192 gives
    64x64x256 and an 8-way cluster along N; 32 < M <= 64 gives 64x64x256
    and the unit cluster; 64 < M <= 128 gives 64x128x128 and a two-way
    cluster; M > 128 gives 128x128x128 and a two-way cluster.  The
    boundary values of M and N fall on the documented side. *)
Theorem int8_selection (OutType : DType) (Epilogue : EpilogueKind) (M N : Z) :
  (M <= 32 -> 8192 <= N ->
   sm90_int8_select OutType Epilogue M N
   = sm90_int8_config_M32_NBig int8_t OutType Epilogue
   /\ tile_and_cluster (sm90_int8_select OutType Epilogue M N)
      = Some (mkShape 64 128 256, mkShape 1 4 1))
  /\
  (M <= 32 -> N < 8192 ->
   sm90_int8_select OutType Epilogue M N
   = sm90_int8_config_M32_NSmall int8_t OutType Epilogue
   /\ tile_and_cluster (sm90_int8_select OutType Epilogue M N)
      = Some (mkShape 64 64 256, mkShape 1 8 1))
  /\
  (32 < M <= 64 ->
   sm90_int8_select OutType Epilogue M N
   = sm90_int8_config_M64 int8_t OutType Epilogue
   /\ tile_and_cluster (sm90_int8_select OutType Epilogue M N)
      = Some (mkShape 64 64 256, mkShape 1 1 1))
  /\
  (64 < M <= 128 ->
   sm90_int8_select OutType Epilogue M N
   = sm90_int8_config_M128 int8_t OutType Epilogue
   /\ tile_and_cluster (sm90_int8_select OutType Epilogue M N)
      = Some (mkShape 64 128 128, mkShape 2 1 1))
  /\
  (128 < M ->
   sm90_int8_select OutType Epilogue M N
   = sm90_int8_config_default int8_t OutType Epilogue
   /\ tile_and_cluster (sm90_int8_select OutType Epilogue M N)
      = Some (mkShape 128 128 128, mkShape 2 1 1))
  /\
  tile_and_cluster (sm90_int8_select OutType Epilogue 32 8191)
  = Some (mkShape 64 64 256, mkShape 1 8 1)
  /\
  tile_and_cluster (sm90_int8_select OutType Epilogue 32 8192)
  = Some (mkShape 64 128 256, mkShape 1 4 1)
  /\
  tile_and_cluster (sm90_int8_select OutType Epilogue 64 N)
  = Some (mkShape 64 64 256, mkShape 1 1 1)
  /\
  tile_and_cluster (sm90_int8_select OutType Epilogue 65 N)
  = Some (mkShape 64 128 128, mkShape 2 1 1)
  /\
  tile_and_cluster (sm90_int8_select OutType Epilogue 128 N)
  = Some (mkShape 64 128 128, mkShape 2 1 1)
  /\
  tile_and_cluster (sm90_int8_select OutType Epilogue 129 N)
  = Some (mkShape 128 128 128, mkShape 2 1 1).
Proof.
  unfold sm90_int8_select.
  repeat match goal with |- _ /\ _ => split end;
    try reflexivity; intros;
    repeat match goal with
           | |- context [?x <=? ?y] => destruct (Z.leb_spec x y); try lia
           end;
    split; reflexivity.
Qed.

Lemma int8_selection_witness :
  tile_and_cluster (sm90_int8_select bfloat16_t ScaledEpilogue_ 16 16384)
  = Some (mkShape 64 128 256, mkShape 1 4 1)
  /\
  tile_and_cluster (sm90_int8_select bfloat16_t ScaledEpilogue_ 16 4096)
  = Some (mkShape 64 64 256, mkShape 1 8 1)
  /\
  tile_and_cluster (sm90_int8_select bfloat16_t ScaledEpilogue_ 48 4096)
  = Some (mkShape 64 64 256, mkShape 1 1 1)
  /\
  tile_and_cluster (sm90_int8_select bfloat16_t ScaledEpilogue_ 100 4096)
  = Some (mkShape 64 128 128, mkShape 2 1 1)
  /\
  tile_and_cluster (sm90_int8_select bfloat16_t ScaledEpilogue_ 4096 4096)
  = Some (mkShape 128 128 128, mkShape 2 1 1).
Proof.
  split; [|split; [|split; [|split]]].
  - apply (proj1 (int8_selection bfloat16_t ScaledEpilogue_ 16 16384)); lia.
  - apply (proj1 (proj2 (int8_selection bfloat16_t ScaledEpilogue_ 16 4096)));
      lia.
  - apply (proj1 (proj2 (proj2
             (int8_selection bfloat16_t ScaledEpilogue_ 48 4096)))); lia.
  - apply (proj1 (proj2 (proj2 (proj2
             (int8_selection bfloat16_t ScaledEpilogue_ 100 4096))))); lia.
  - apply (proj1 (proj2 (proj2 (proj2 (proj2
             (int8_selection bfloat16_t ScaledEpilogue_ 4096 4096)))))); lia.
Defined.

(* ===================================================================== *)
(** ** The entry point: validation, workspace, launch *)
(* ===================================================================== *)

Lemma Status_eqb_eq (a b : Status) : Status_eqb a b = true <-> a = b.
Proof. destruct a, b; cbn; split; intros; congruence. Qed.

Section Launch_lemmas.

Context `{Num : Numerics} `{ML : Mainloop} `{Op : !GemmOp}.

(** A problem the kernel cannot implement stops the launch at the check:
    the status is raised and the trace is as it was. *)
Lemma launch_rejected Gemm (a : Tensor operand) args tr :
  can_implement Gemm args <> kSuccess ->
  launch Gemm a args tr = (Raised unit (can_implement Gemm args), tr).
Proof.
  intros Hno. unfold launch, bind, CUTLASS_CHECK.
  destruct (Status_eqb (can_implement Gemm args) kSuccess) eqn:Heq.
  - apply Status_eqb_eq in Heq. contradiction.
  - reflexivity.
Qed.

(** An implementable problem: the workspace is allocated, then the kernel
    is run on it, and the status of the run decides the outcome. *)
Lemma launch_accepted Gemm (a : Tensor operand) args tr :
  can_implement Gemm args = kSuccess ->
  let workspace :=
    mkWorkspace (get_workspace_size Gemm args) (device a) in
  let stream := getCurrentCUDAStream (device a) in
  launch Gemm a args tr
  = (fst (CUTLASS_CHECK (run_status Gemm args workspace stream) []),
     (tr ++ [ev_torch_empty (get_workspace_size Gemm args) (device a)])
        ++ [ev_run args workspace stream]).
Proof.
  intros Hyes. cbn zeta.
  unfold launch, bind, CUTLASS_CHECK, torch_empty, run, bind, emit, ret.
  rewrite Hyes. cbn.
  destruct (Status_eqb _ kSuccess); reflexivity.
Qed.

(** The trace of a call whose problem is implementable. *)
Lemma caller_trace_accepted Gemm out (a : Tensor operand) e b p args :
  make_arguments Gemm out a e b p = Instantiated args ->
  can_implement Gemm args = kSuccess ->
  trace_of (cutlass_sparse_gemm_caller Gemm out a e b p)
  = [ev_torch_empty (get_workspace_size Gemm args) (device a);
     ev_run args (mkWorkspace (get_workspace_size Gemm args) (device a))
       (getCurrentCUDAStream (device a))].
Proof.
  intros Hargs Hyes. unfold trace_of, call, cutlass_sparse_gemm_caller.
  rewrite Hargs. cbn [inst_bind].
  rewrite launch_accepted by exact Hyes. reflexivity.
Qed.

End Launch_lemmas.

(** C8. The entry point checks [can_implement] on the assembled
    arguments before anything else: when the check fails the call ends by
    raising that status, which is not success, and its trace is empty (no
    allocation, no kernel handed to the stream); a kernel is handed to a
    stream only when the check succeeded; the arguments checked hold the
    problem shape (M, N, K) and the strides taken from the tensors. *)
Theorem implementability_checked_first `{Num : Numerics} `{ML : Mainloop}
    `{Op : !GemmOp} Gemm out a e b p args :
  make_arguments Gemm out a e b p = Instantiated args ->
  (can_implement Gemm args <> kSuccess ->
   call (cutlass_sparse_gemm_caller Gemm out a e b p)
   = Some (Raised unit (can_implement Gemm args), []))
  /\
  (Exists (fun ev => is_device_work ev = true)
     (trace_of (cutlass_sparse_gemm_caller Gemm out a e b p)) ->
   can_implement Gemm args = kSuccess)
  /\
  (problem_shape args
   = mkProblemShape (Int32.wrap (size a 0)) (Int32.wrap (size b 1))
       (Int32.wrap (size a 1)) 1
   /\ dB (mainloop args) = mkStride (stride b 1) 1 0
   /\ dD (epilogue args) = mkStride (stride out 0) 1 0).
Proof.
  intros Hargs.
  assert (Hshape :
    problem_shape args
    = mkProblemShape (Int32.wrap (size a 0)) (Int32.wrap (size b 1))
        (Int32.wrap (size a 1)) 1
    /\ dB (mainloop args) = mkStride (stride b 1) 1 0
    /\ dD (epilogue args) = mkStride (stride out 0) 1 0).
  { unfold make_arguments in Hargs.
    destruct (prepare_args _ p) as [thread_args|]; [|discriminate].
    cbn in Hargs. injection Hargs as <-. repeat split. }
  unfold trace_of, call, cutlass_sparse_gemm_caller.
  rewrite Hargs. cbn [inst_bind]. split; [|split; [|exact Hshape]].
  - intros Hno. rewrite launch_rejected by exact Hno. reflexivity.
  - intros Hwork.
    destruct (Status_eqb (can_implement Gemm args) kSuccess) eqn:Heq.
    + apply Status_eqb_eq. exact Heq.
    + assert (Hno : can_implement Gemm args <> kSuccess).
      { intros Hyes. apply Status_eqb_eq in Hyes. congruence. }
      rewrite launch_rejected in Hwork by exact Hno.
      inversion Hwork.
Qed.

Lemma implementability_checked_first_witness :
  call (SampleCall.run_caller kErrorInvalidProblem 1024 kSuccess)
  = Some (Raised unit kErrorInvalidProblem, []).
Proof.
  unfold SampleCall.run_caller.
  refine (proj1 (implementability_checked_first
                   (Op := Engine.gemm_op kErrorInvalidProblem 1024 kSuccess)
                   SampleCall.Gemm (SampleCall.out (IEEE.half_of 0 0))
                   SampleCall.a SampleCall.e SampleCall.b SampleCall.params
                   _ _) _).
  - reflexivity.
  - cbn. discriminate.
Defined.

(** C3, as the specification has it, fails: on the sample call the entry
    point allocates the workspace itself. *)
Lemma entry_point_allocates_workspace :
  ~ never_allocates (SampleCall.run_caller kSuccess 1024 kSuccess).
Proof.
  unfold never_allocates, SampleCall.run_caller.
  erewrite (caller_trace_accepted
              (Op := Engine.gemm_op kSuccess 1024 kSuccess));
    [|reflexivity|reflexivity].
  intros Hnever. inversion Hnever as [|ev evs Hev _]. discriminate Hev.
Qed.

(** C3, amended. Whenever the implementability check passes, the entry
    point asks the assembled kernel for its workspace size, itself
    allocates one buffer of exactly that many bytes on the device of
    operand A through [torch::empty], and hands that buffer to the run of
    the kernel on the current stream of that device; the caller supplies
    no workspace, and the trace holds nothing else. *)
Theorem workspace_allocated_per_call `{Num : Numerics} `{ML : Mainloop}
    `{Op : !GemmOp} Gemm out a e b p args :
  make_arguments Gemm out a e b p = Instantiated args ->
  can_implement Gemm args = kSuccess ->
  trace_of (cutlass_sparse_gemm_caller Gemm out a e b p)
  = [ev_torch_empty (get_workspace_size Gemm args) (device a);
     ev_run args (mkWorkspace (get_workspace_size Gemm args) (device a))
       (getCurrentCUDAStream (device a))].
Proof.
  intros Hargs Hyes. by apply caller_trace_accepted.
Qed.

Lemma workspace_allocated_per_call_witness :
  exists args,
    make_arguments SampleCall.Gemm (SampleCall.out (IEEE.half_of 0 0))
      SampleCall.a SampleCall.e SampleCall.b SampleCall.params
    = Instantiated args
    /\ trace_of (SampleCall.run_caller kSuccess 1024 kSuccess)
       = [ev_torch_empty 1024 0;
          ev_run args (mkWorkspace 1024 0) 0%nat].
Proof.
  eexists. split; [reflexivity|].
  unfold SampleCall.run_caller.
  apply (workspace_allocated_per_call
           (Op := Engine.gemm_op kSuccess 1024 kSuccess)
           SampleCall.Gemm (SampleCall.out (IEEE.half_of 0 0))
           SampleCall.a SampleCall.e SampleCall.b SampleCall.params);
    reflexivity.
Defined.

(* ===================================================================== *)
(** ** Further properties: 32-bit arithmetic of the zero-point term *)
(* ===================================================================== *)

Lemma Int32_wrap_range (z : Z) : Int32.in_range (Int32.wrap z).
Proof.
  unfold Int32.in_range, Int32.wrap, Int32.min_signed, Int32.max_signed,
    Int32.half_modulus, Int32.modulus.
  pose proof (Z.mod_pos_bound (z + 2 ^ 31) (2 ^ 32) ltac:(lia)). lia.
Qed.

(** Wrapping an operand of a subtraction first changes nothing. *)
Lemma Int32_sub_wrap_r (a b : Z) : Int32.sub a (Int32.wrap b) = Int32.sub a b.
Proof.
  unfold Int32.sub, Int32.wrap, Int32.half_modulus, Int32.modulus.
  f_equal. 
  replace (a - ((b + 2 ^ 31) mod 2 ^ 32 - 2 ^ 31) + 2 ^ 31)
    with ((a + 2 ^ 31 + 2 ^ 31) - (b + 2 ^ 31) mod 2 ^ 32) by lia.
  rewrite Zminus_mod_idemp_r. f_equal. lia.
Qed.

(** X1. In the per-token epilogue an overflow of the product
    azp * azp_adj does no harm: whenever the corrected accumulator
    accum - azp[m] * azp_adj[n] itself fits [int32_t], the subtree
    [EVTComputeAcc] yields exactly that integer, converted to [float]. *)
Theorem token_correction_exact_despite_overflow `{Num : Numerics}
    (azp azp_adj : Tensor Z) (accum zp zpAdj : Z) (src : option scalar)
    (m n : nat) :
  storage azp !! m = Some zp ->
  storage azp_adj !! n = Some zpAdj ->
  Int32.in_range (accum - zp * zpAdj) ->
  visit ScaledEpilogueBiasAzpToken.EVTComputeAcc
    (args_evt [args_default;
               args_evt [args_ptr Tint32 (data_ptr azp);
                         args_ptr Tint32 (data_ptr azp_adj)]])
    (Int32 accum) src m n
  = Some (Float (float_of_int32 (accum - zp * zpAdj))).
Proof.
  intros Hzp Hadj Hfit. cbn. rewrite Hzp, Hadj. cbn.
  unfold Int32.mul. rewrite Int32_sub_wrap_r.
  unfold Int32.sub. rewrite (Int32_wrap_in_range _ Hfit). reflexivity.
Qed.

Lemma token_correction_exact_despite_overflow_witness :
  ~ Int32.in_range (65536 * 32768)
  /\
  visit ScaledEpilogueBiasAzpToken.EVTComputeAcc
    (@args_evt IEEE.numerics
       [args_default;
        args_evt [args_ptr Tint32 (data_ptr (IEEE.vector [65536]));
                  args_ptr Tint32 (data_ptr (IEEE.vector [32768]))]])
    (Sample.int32 2147483647) None 0 0
  = Some (@Float IEEE.numerics (IEEE.of_int32 (-1))).
Proof.
  split.
  - unfold Int32.in_range, Int32.min_signed, Int32.max_signed,
      Int32.half_modulus. lia.
  - apply (token_correction_exact_despite_overflow (Num := IEEE.numerics)
             (IEEE.vector [65536]) (IEEE.vector [32768]) 2147483647
             65536 32768 None 0%nat 0%nat); try reflexivity.
    unfold Int32.in_range, Int32.min_signed, Int32.max_signed,
      Int32.half_modulus. lia.
Defined.

(* ===================================================================== *)
(** ** Further properties: the two overloads of [args_from_tensor] *)
(* ===================================================================== *)

(** X2. For a row or column load of element type [T], exactly one of the
    two overloads of [args_from_tensor] instantiates: the one for a plain
    tensor when null pointers are disabled, the one for an optional tensor
    when they are enabled; the optional overload never instantiates for an
    "or scalar" load; and what the plain overload binds is the data
    pointer of the tensor, with the flag [numel != 1] exactly for an
    "or scalar" load of [T] and without a flag for every other
    descriptor it accepts. *)
Theorem args_from_tensor_overloads `{Num : Numerics} (T : Element) :
  (forall EnableNullPtr (t : Tensor (val T)) (o : option (Tensor (val T))),
      instantiates (args_from_tensor (ColLoad T EnableNullPtr) T t)
      = negb EnableNullPtr
      /\ instantiates
           (args_from_optional_tensor (ColLoad T EnableNullPtr) T o)
         = EnableNullPtr
      /\ instantiates (args_from_tensor (RowLoad T EnableNullPtr) T t)
         = negb EnableNullPtr
      /\ instantiates
           (args_from_optional_tensor (RowLoad T EnableNullPtr) T o)
         = EnableNullPtr)
  /\
  (forall (o : option (Tensor (val T))),
      args_from_optional_tensor (ColOrScalarLoad T) T o = CompileError
      /\ args_from_optional_tensor (RowOrScalarLoad T) T o = CompileError)
  /\
  (forall D (t : Tensor (val T)) args,
      args_from_tensor D T t = Instantiated args ->
      (is_OrScalarLoad D T = true
       /\ args = args_ptr_flag T (data_ptr t) (negb (numel t =? 1)))
      \/ (is_OrScalarLoad D T = false
          /\ is_nullable_Load D T = false
          /\ args = args_ptr T (data_ptr t))).
Proof.
  split; [|split].
  - intros b t o.
    unfold args_from_tensor, args_from_optional_tensor, is_OrScalarLoad,
      is_nullable_Load.
    destruct b; rewrite ?Element_eqb_refl; repeat split.
  - intros o.
    unfold args_from_optional_tensor, is_nullable_Load. split; reflexivity.
  - intros D t args Hargs. unfold args_from_tensor in Hargs.
    destruct (is_OrScalarLoad D T).
    + injection Hargs as <-. left. split; reflexivity.
    + destruct (is_nullable_Load D T); [discriminate|].
      injection Hargs as <-. right. repeat split.
Qed.

Lemma args_from_tensor_overloads_witness :
  is_OrScalarLoad (RowLoad Tint32 false) Tint32 = false
  /\ @args_from_tensor IEEE.numerics (RowLoad Tint32 false) Tint32
       Sample.azp_adj
     = Instantiated
         (@args_ptr IEEE.numerics Tint32 (data_ptr Sample.azp_adj)).
Proof.
  destruct (args_from_tensor_overloads (Num := IEEE.numerics) Tint32)
    as (_ & _ & H).
  destruct (H (RowLoad Tint32 false) Sample.azp_adj
              (args_ptr Tint32 (data_ptr Sample.azp_adj)) eq_refl)
    as [[Hor _]|[Hor _]].
  - discriminate Hor.
  - split; [exact Hor|reflexivity].
Defined.

(** X3. Every load descriptor the four epilogues declare is served by
    the overload its [prepare_args] calls, so all four [prepare_args]
    instantiate for every input: no [static_assert] of
    [args_from_tensor] fires in this header.  The root tuple always holds
    the arguments of the A scale first, flagged as a vector exactly when
    [a_scales] has more or fewer than one element. *)
Theorem prepare_args_instantiate `{Num : Numerics} (p : EpilogueParams) :
  exists a_scales rest,
    prepare_args (kind_of p) p
    = Instantiated
        (args_evt
           (args_ptr_flag Tfloat (data_ptr a_scales)
              (negb (numel a_scales =? 1)) :: rest))
    /\ with_a_scales p a_scales = p
    /\ (length rest = 1 \/ length rest = 2)%nat.
Proof.
  destruct p as [a b|a b bias|a b adj bias|a b adj azp bias];
    exists a; eexists; (split; [reflexivity|split; [reflexivity|]]);
    cbn; auto.
Qed.

(* ===================================================================== *)
(** ** Further properties: what an epilogue yields and what it reads *)
(* ===================================================================== *)

Section Typing_lemmas.

Context `{Num : Numerics}.

Lemma NumericConverter_type (dst : Element) (v v' : scalar) :
  NumericConverter dst v = Some v' -> type_of v' = dst.
Proof. destruct dst, v; cbn; intros [= <-]; reflexivity. Qed.

(** A compute node yields a value of its [ElementOutput]. *)
Lemma compute_type (node : Sm90Compute) (vs : list scalar) (v : scalar) :
  compute node vs = Some v -> type_of v = ElementOutput node.
Proof.
  unfold compute. destruct (RoundStyle node); try discriminate.
  destruct (mapM _ vs) as [cvs|]; [|discriminate]. cbn.
  destruct (apply_fn _ cvs) as [r|]; [|discriminate]. cbn.
  apply NumericConverter_type.
Qed.

(** The index an "or scalar" load reads is the one the descriptor of the
    tensor denotes. *)
Lemma value_at_index {A} (t : Tensor A) (k : nat) :
  storage t !! (if negb (numel t =? 1) then k else 0%nat) = Spec.value_at t k.
Proof. unfold Spec.value_at. destruct (numel t =? 1); reflexivity. Qed.

Lemma fmap_Float_inj (x y : option float) :
  Float <$> x = Float <$> y -> x = y.
Proof. destruct x, y; cbn; congruence. Qed.

Lemma fmap_Int32_inj (x y : option Z) :
  Int32 <$> x = Int32 <$> y -> x = y.
Proof. destruct x, y; cbn; congruence. Qed.

Lemma fmap_OutD_inj (x y : option ElementD) :
  OutD <$> x = OutD <$> y -> x = y.
Proof. destruct x, y; cbn; congruence. Qed.

End Typing_lemmas.

(** X4. Whatever the accumulator and the tensors, an epilogue that yields
    an element yields one of the output type [ElementD]: the root node of
    each of the four trees converts to [ElementD]. *)
Theorem epilogue_output_type `{Num : Numerics} (p : EpilogueParams)
    (accum : scalar) (src : option scalar) (m n : nat) (v : scalar) :
  epilogue_output p accum src m n = Instantiated (Some v) ->
  exists d, v = OutD d.
Proof.
  intros Hout.
  assert (Htype : type_of v = TElementD).
  { unfold epilogue_output in Hout.
    destruct (prepare_args (kind_of p) p) as [args|] eqn:Hargs;
      [|discriminate].
    cbn [inst_bind] in Hout. injection Hout as Hvisit.
    destruct p; cbn [kind_of EVTCompute] in Hvisit;
      unfold ScaledEpilogue.EVTCompute, ScaledEpilogueBias.EVTCompute,
        ScaledEpilogueBiasAzp.EVTCompute,
        ScaledEpilogueBiasAzpToken.EVTCompute in Hvisit;
      rewrite visit_Sm90EVT in Hvisit;
      destruct (child_args args) as [l|]; try discriminate;
      cbn [mbind option_bind] in Hvisit;
      destruct (visit_children _ l accum src m n) as [vs|];
      try discriminate;
      apply compute_type in Hvisit; exact Hvisit. }
  destruct v; try discriminate. eexists; reflexivity.
Qed.

Lemma epilogue_output_type_witness :
  exists d,
    Sample.out 31 4 = @OutD IEEE.numerics d.
Proof.
  apply (epilogue_output_type (Num := IEEE.numerics)
           (params_bias Sample.a_scales Sample.b_scales Sample.bias)
           (Sample.int32 7) None 0%nat 1%nat).
  reflexivity.
Defined.

(** X5. The output at [(m, n)] depends on the tensors only through the
    entries of row [m] and column [n]: two parameter packs for the same
    epilogue that agree on [reads] at [(m, n)] give the same output there,
    whatever else their tensors hold. *)
Theorem epilogue_output_local `{Num : Numerics} (p p' : EpilogueParams)
    (accum : scalar) (src : option scalar) (m n : nat) :
  kind_of p = kind_of p' ->
  reads p m n = reads p' m n ->
  epilogue_output p accum src m n = epilogue_output p' accum src m n.
Proof.
  intros Hkind Hreads.
  destruct p as [a b|a b bias|a b adj bias|a b adj azp bias];
    destruct p' as [a' b'|a' b' bias'|a' b' adj' bias'|a' b' adj' azp' bias'];
    try discriminate Hkind; cbn [reads] in Hreads.
  - injection Hreads as HA HB.
    apply fmap_Float_inj in HA, HB.
    unfold epilogue_output. cbn.
    rewrite !value_at_index, HA, HB. reflexivity.
  - injection Hreads as HA HB Hbias.
    apply fmap_Float_inj in HA, HB. apply fmap_OutD_inj in Hbias.
    unfold epilogue_output. cbn.
    rewrite !value_at_index, HA, HB, Hbias. reflexivity.
  - injection Hreads as HA HB Hadj Hbias.
    apply fmap_Float_inj in HA, HB. apply fmap_Int32_inj in Hadj.
    apply fmap_OutD_inj in Hbias.
    unfold epilogue_output. cbn.
    rewrite !value_at_index, HA, HB, Hadj.
    destruct bias, bias'; cbn in Hbias |- *;
      first [rewrite Hbias | rewrite <- Hbias | idtac]; reflexivity.
  - injection Hreads as HA HB Hzp Hadj Hbias.
    apply fmap_Float_inj in HA, HB. apply fmap_Int32_inj in Hzp, Hadj.
    apply fmap_OutD_inj in Hbias.
    unfold epilogue_output. cbn.
    rewrite !value_at_index, HA, HB, Hzp, Hadj.
    destruct bias, bias'; cbn in Hbias |- *;
      first [rewrite Hbias | rewrite <- Hbias | idtac]; reflexivity.
Qed.

Lemma epilogue_output_local_witness :
  epilogue_output (params_scaled Sample.a_scales Sample.b_scales)
    (Sample.int32 7) None 0 1
  = epilogue_output (params_scaled Sample.a_scales Sample2.b_scales)
      (Sample.int32 7) None 0 1.
Proof.
  apply (epilogue_output_local (Num := IEEE.numerics)); reflexivity.
Defined.

(** X6. A floating-point accumulator handed to a zero-point epilogue is
    first converted to [int32_t]: the subtraction node computes in
    [int32_t] whatever the accumulator type, so the output is the
    zero-point formula on the converted accumulator. *)
Theorem zero_point_on_float_accumulator `{Num : Numerics} :
  (forall a_scales b_scales azp_adj bias (x : float) src m n
          scaleA scaleB zpAdj bias_n,
      Spec.value_at a_scales m = Some scaleA ->
      Spec.value_at b_scales n = Some scaleB ->
      storage azp_adj !! n = Some zpAdj ->
      Spec.bias_at bias n = Some bias_n ->
      epilogue_output (params_azp a_scales b_scales azp_adj bias)
        (Float x) src m n
      = Instantiated
          (Some (OutD (Spec.ScaleBiasZP_PerTensor scaleA scaleB
                         (int32_of_float x) zpAdj bias_n))))
  /\
  (forall a_scales b_scales azp_adj azp bias (x : float) src m n
          scaleA scaleB zp zpAdj bias_n,
      Spec.value_at a_scales m = Some scaleA ->
      Spec.value_at b_scales n = Some scaleB ->
      storage azp !! m = Some zp ->
      storage azp_adj !! n = Some zpAdj ->
      Spec.bias_at bias n = Some bias_n ->
      epilogue_output (params_azp_token a_scales b_scales azp_adj azp bias)
        (Float x) src m n
      = Instantiated
          (Some (OutD (Spec.ScaleBiasZP_PerToken scaleA scaleB
                         (int32_of_float x) zp zpAdj bias_n)))).
Proof.
  split.
  - intros a b adj bias x src m n sA sB zpAdj bias_n HA HB Hadj Hbias.
    unfold epilogue_output. cbn.
    rewrite !value_at_index, HA, HB. cbn. rewrite Hadj. cbn.
    destruct bias; cbn in Hbias |- *; simplify_eq; try rewrite Hbias;
      reflexivity.
  - intros a b adj azp bias x src m n sA sB zp zpAdj bias_n
      HA HB Hzp Hadj Hbias.
    unfold epilogue_output. cbn.
    rewrite !value_at_index, HA, HB. cbn. rewrite Hzp, Hadj. cbn.
    destruct bias; cbn in Hbias |- *; simplify_eq; try rewrite Hbias;
      reflexivity.
Qed.

Lemma zero_point_on_float_accumulator_witness :
  epilogue_output
    (params_azp Sample.a_scales Sample.b_scales Sample.azp_adj None)
    (Sample2.float_acc 201 1) None 1 1
  = epilogue_output
      (params_azp Sample.a_scales Sample.b_scales Sample.azp_adj None)
      (Sample.int32 100) None 1 1.
Proof.
  unfold Sample2.float_acc.
  rewrite (proj1 (zero_point_on_float_accumulator (Num := IEEE.numerics))
             Sample.a_scales Sample.b_scales Sample.azp_adj None
             (IEEE.dyadic 201 1) None 1%nat 1%nat (IEEE.dyadic 1 1)
             (IEEE.dyadic 1 3) 20 (S754_zero false)
             eq_refl eq_refl eq_refl eq_refl).
  reflexivity.
Defined.

(** X7. The zero-point epilogues degenerate to [ScaledEpilogueBias]: for
    an accumulator within [int32_t] and a bias that is present, the
    per-tensor epilogue with a zero adjustment in column [n], and the
    per-token epilogue with a zero point 0 in row [m] (and an adjustment
    present in column [n]), give at [(m, n)] the output of
    [ScaledEpilogueBias]. *)
Theorem zero_point_degenerates_to_bias `{Num : Numerics}
    (a_scales b_scales : Tensor float) (azp_adj azp : Tensor Z)
    (bias : Tensor ElementD) (accum : Z) (src : option scalar)
    (m n : nat) :
  Int32.in_range accum ->
  (storage azp_adj !! n = Some 0 ->
   epilogue_output (params_azp a_scales b_scales azp_adj (Some bias))
     (Int32 accum) src m n
   = epilogue_output (params_bias a_scales b_scales bias)
       (Int32 accum) src m n)
  /\
  (storage azp !! m = Some 0 ->
   is_Some (storage azp_adj !! n) ->
   epilogue_output
     (params_azp_token a_scales b_scales azp_adj azp (Some bias))
     (Int32 accum) src m n
   = epilogue_output (params_bias a_scales b_scales bias)
       (Int32 accum) src m n).
Proof.
  intros Hacc.
  assert (Hsub : Int32.sub accum 0 = accum).
  { unfold Int32.sub. rewrite Z.sub_0_r. apply Int32_wrap_in_range, Hacc. }
  split.
  - intros Hadj. unfold epilogue_output. cbn. rewrite Hadj.
    destruct (storage a_scales !! _); [|reflexivity].
    destruct (storage b_scales !! _); [|reflexivity].
    cbn. rewrite Hsub. reflexivity.
  - intros Hzp [zpAdj Hadj]. unfold epilogue_output. cbn.
    rewrite Hzp, Hadj.
    destruct (storage a_scales !! _); [|reflexivity].
    destruct (storage b_scales !! _); [|reflexivity].
    cbn. replace (Int32.mul 0 zpAdj) with 0 by reflexivity.
    rewrite Hsub. reflexivity.
Qed.

Lemma zero_point_degenerates_to_bias_witness :
  epilogue_output
    (params_azp Sample.a_scales Sample.b_scales Sample2.zero_adj
       (Some Sample.bias)) (Sample.int32 7) None 0 1
  = epilogue_output
      (params_bias Sample.a_scales Sample.b_scales Sample.bias)
      (Sample.int32 7) None 0 1
  /\
  epilogue_output
    (params_azp_token Sample.a_scales Sample.b_scales Sample.azp_adj
       Sample2.zero_azp (Some Sample.bias)) (Sample.int32 7) None 0 1
  = epilogue_output
      (params_bias Sample.a_scales Sample.b_scales Sample.bias)
      (Sample.int32 7) None 0 1.
Proof.
  assert (Hfit : Int32.in_range 7).
  { unfold Int32.in_range, Int32.min_signed, Int32.max_signed,
      Int32.half_modulus. lia. }
  split.
  - apply (proj1 (zero_point_degenerates_to_bias (Num := IEEE.numerics)
                    Sample.a_scales Sample.b_scales Sample2.zero_adj
                    Sample.azp Sample.bias 7 None 0%nat 1%nat Hfit)).
    reflexivity.
  - apply (proj2 (zero_point_degenerates_to_bias (Num := IEEE.numerics)
                    Sample.a_scales Sample.b_scales Sample.azp_adj
                    Sample2.zero_azp Sample.bias 7 None 0%nat 1%nat Hfit)).
    + reflexivity.
    + eexists. reflexivity.
Defined.

(* ===================================================================== *)
(** ** Further properties: the entry point *)
(* ===================================================================== *)

(** X8. Once the implementability check has passed, the status of
    [gemm_op.run] decides how the call ends: on success the entry point
    returns, on any other status it raises that status; in both cases the
    workspace had been allocated and the kernel handed to the stream
    before. *)
Theorem run_status_decides_outcome `{Num : Numerics} `{ML : Mainloop}
    `{Op : !GemmOp} Gemm out a e b p args :
  make_arguments Gemm out a e b p = Instantiated args ->
  can_implement Gemm args = kSuccess ->
  let workspace := mkWorkspace (get_workspace_size Gemm args) (device a) in
  let stream := getCurrentCUDAStream (device a) in
  let status := run_status Gemm args workspace stream in
  let trace :=
    [ev_torch_empty (get_workspace_size Gemm args) (device a);
     ev_run args workspace stream] in
  (status = kSuccess ->
   call (cutlass_sparse_gemm_caller Gemm out a e b p)
   = Some (Returned unit tt, trace))
  /\
  (status <> kSuccess ->
   call (cutlass_sparse_gemm_caller Gemm out a e b p)
   = Some (Raised unit status, trace)).
Proof.
  intros Hargs Hyes. cbn zeta.
  unfold call, cutlass_sparse_gemm_caller. rewrite Hargs. cbn [inst_bind].
  rewrite launch_accepted by exact Hyes. unfold CUTLASS_CHECK. split.
  - intros ->. reflexivity.
  - intros Hno.
    destruct (Status_eqb _ kSuccess) eqn:Heq; [|reflexivity].
    apply Status_eqb_eq in Heq. contradiction.
Qed.

Lemma run_status_decides_outcome_witness :
  exists args,
    make_arguments SampleCall.Gemm (SampleCall.out (IEEE.half_of 0 0))
      SampleCall.a SampleCall.e SampleCall.b SampleCall.params
    = Instantiated args
    /\ call (SampleCall.run_caller kSuccess 64 kErrorInternal)
       = Some (Raised unit kErrorInternal,
               [ev_torch_empty 64 0; ev_run args (mkWorkspace 64 0) 0%nat])
    /\ call (SampleCall.run_caller kSuccess 64 kSuccess)
       = Some (Returned unit tt,
               [ev_torch_empty 64 0; ev_run args (mkWorkspace 64 0) 0%nat]).
Proof.
  eexists. split; [reflexivity|]. split.
  - unfold SampleCall.run_caller.
    apply (proj2 (run_status_decides_outcome
                    (Op := Engine.gemm_op kSuccess 64 kErrorInternal)
                    SampleCall.Gemm (SampleCall.out (IEEE.half_of 0 0))
                    SampleCall.a SampleCall.e SampleCall.b SampleCall.params
                    _ eq_refl eq_refl)).
    cbn. discriminate.
  - unfold SampleCall.run_caller.
    apply (proj1 (run_status_decides_outcome
                    (Op := Engine.gemm_op kSuccess 64 kSuccess)
                    SampleCall.Gemm (SampleCall.out (IEEE.half_of 0 0))
                    SampleCall.a SampleCall.e SampleCall.b SampleCall.params
                    _ eq_refl eq_refl)).
    reflexivity.
Defined.

(** X10. The kernel arguments the entry point assembles: the mode is
    [kGemm] and the batch extent 1; each of M, N, K equals the extent of
    its tensor exactly when that extent fits the [int32_t] it is stored
    in; the layouts of the compressed operand and of its metadata are
    both computed from this very problem shape; and the operand pointers
    are the data of [a], [b] and [e]. *)
Theorem arguments_assembled `{Num : Numerics} `{ML : Mainloop}
    Gemm out (a : Tensor operand) (e : Tensor metadata) (b : Tensor operand)
    p args :
  make_arguments Gemm out a e b p = Instantiated args ->
  mode args = kGemm
  /\ shape_L (problem_shape args) = 1
  /\ (shape_M (problem_shape args) = size a 0 <-> Int32.in_range (size a 0))
  /\ (shape_N (problem_shape args) = size b 1 <-> Int32.in_range (size b 1))
  /\ (shape_K (problem_shape args) = size a 1 <-> Int32.in_range (size a 1))
  /\ layout_a (mainloop args) = fill_layoutA (problem_shape args)
  /\ layout_e (mainloop args) = fill_layoutE (problem_shape args)
  /\ ptr_A (mainloop args) = data_ptr a
  /\ ptr_B (mainloop args) = data_ptr b
  /\ ptr_E (mainloop args) = data_ptr e.
Proof.
  intros Hargs. unfold make_arguments in Hargs.
  destruct (prepare_args _ p) as [thread_args|]; [|discriminate].
  cbn in Hargs. injection Hargs as <-. cbn.
  assert (Hwrap : forall z, Int32.wrap z = z <-> Int32.in_range z).
  { intros z. split.
    - intros <-. apply Int32_wrap_range.
    - apply Int32_wrap_in_range. }
  repeat match goal with |- _ /\ _ => split end;
    try reflexivity; apply Hwrap.
Qed.

Lemma arguments_assembled_witness :
  exists args,
    make_arguments SampleCall.Gemm (SampleCall.out (IEEE.half_of 0 0))
      SampleCall.a SampleCall.e SampleCall.b SampleCall.params
    = Instantiated args
    /\ problem_shape args = mkProblemShape 2 2 4 1
    /\ layout_a (mainloop args) = mkProblemShape 2 2 4 1.
Proof.
  eexists. split; [reflexivity|].
  pose proof (arguments_assembled SampleCall.Gemm
                (SampleCall.out (IEEE.half_of 0 0)) SampleCall.a SampleCall.e
                SampleCall.b SampleCall.params _ eq_refl)
    as (_ & _ & _ & _ & _ & Hlayout & _).
  split; [reflexivity|]. rewrite Hlayout. reflexivity.
Defined.

(* ===================================================================== *)
(** ** Further properties: the configurations *)
(* ===================================================================== *)

(** X12. Each configuration template instantiates for the operand type
    its [static_assert] names and for no other, and every kernel so
    assembled carries the operand type, output type and epilogue it was
    asked for, accumulates in [int32_t] exactly for [int8_t] operands and
    in [float] otherwise, has no source operand, runs in mode [kGemm]
    under the persistent scheduler, has tile extents that are positive
    multiples of 64 and a cluster of at most 8 thread blocks. *)
Theorem configurations_well_assembled :
  Forall (fun '(T, config) =>
            forall InType OutType E,
              instantiates (config InType OutType E) = DType_eqb InType T
              /\ forall g,
                   config InType OutType E = Instantiated g ->
                   well_assembled InType OutType E g)
         configurations.
Proof.
  unfold configurations.
  repeat (constructor;
          [intros InType OutType E; split;
           [destruct InType; reflexivity
           |intros g Hg; destruct InType; try discriminate Hg;
            injection Hg as <-; unfold well_assembled; cbn;
            repeat split; try reflexivity; unfold cluster_size; cbn; lia]
          |]).
  constructor.
Qed.

(* ===================================================================== *)
(** ** Further properties: element counts at the edges *)
(* ===================================================================== *)

Lemma numel_zero_extent {A} (t : Tensor A) : In 0 (sizes t) -> numel t = 0.
Proof.
  unfold numel. induction (sizes t) as [|s l IH]; cbn; [intros []|].
  intros [->|Hin]; [reflexivity|]. rewrite (IH Hin). lia.
Qed.

(** X14. Element counts at the edges: a scale tensor with no extents at
    all (a 0-dimensional tensor) counts one element and is bound as a
    scalar; a scale tensor with an extent 0 counts no element, is bound
    as a vector, and when its storage is empty, as its count says, every
    load from it is without a value, at every coordinate. *)
Theorem scale_element_count_edges `{Num : Numerics} (D : Descriptor)
    (t : Tensor float) :
  is_OrScalarLoad D Tfloat = true ->
  (sizes t = [] ->
   args_from_tensor D Tfloat t
   = Instantiated (args_ptr_flag Tfloat (data_ptr t) false))
  /\
  (In 0 (sizes t) ->
   args_from_tensor D Tfloat t
   = Instantiated (args_ptr_flag Tfloat (data_ptr t) true)
   /\ (storage t = [] ->
       forall m n,
         load D (args_ptr_flag Tfloat (data_ptr t) true) m n = None)).
Proof.
  intros HD.
  destruct D as [T|T|T c|T c]; cbn in HD; try discriminate HD;
    destruct T; try discriminate HD;
    (split;
     [intros Hsizes;
      assert (Hone : numel t = 1) by (unfold numel; rewrite Hsizes; reflexivity);
      unfold args_from_tensor; cbn; rewrite Hone; reflexivity
     |intros Hzero; pose proof (numel_zero_extent t Hzero) as Hnone;
      split;
      [unfold args_from_tensor; cbn; rewrite Hnone; reflexivity
      |intros Hempty m n; cbn; rewrite Hempty; reflexivity]]).
Qed.

Lemma scale_element_count_edges_witness :
  @args_from_tensor IEEE.numerics ScaledEpilogue.ScaleA Tfloat
    (mkTensor [] [] 0%nat [IEEE.dyadic 1 1])
  = Instantiated
      (@args_ptr_flag IEEE.numerics Tfloat
         (data_ptr (mkTensor [] [] 0%nat [IEEE.dyadic 1 1])) false)
  /\
  load ScaledEpilogue.ScaleB
    (@args_ptr_flag IEEE.numerics Tfloat
       (data_ptr (mkTensor (A := @float IEEE.numerics) [1; 0] [1; 1] 0%nat []))
       true) 0 0
  = None.
Proof.
  split.
  - apply (proj1 (scale_element_count_edges (Num := IEEE.numerics)
                    ScaledEpilogue.ScaleA
                    (mkTensor [] [] 0%nat [IEEE.dyadic 1 1]) eq_refl)).
    reflexivity.
  - apply (proj2 (scale_element_count_edges (Num := IEEE.numerics)
                    ScaledEpilogue.ScaleB
                    (mkTensor [1; 0] [1; 1] 0%nat []) eq_refl)).
    + cbn. right. left. reflexivity.
    + reflexivity.
Defined.

Lemma configurations_well_assembled_witness :
  well_assembled int8_t bfloat16_t ScaledEpilogueBiasAzp_
    (cutlass_3x_gemm.make_default int8_t bfloat16_t ScaledEpilogueBiasAzp_
       (mkShape 64 64 256) (mkShape 1 1 1)
       KernelTmaWarpSpecialized TmaWarpSpecialized Tint32).
Proof.
  pose proof (Forall_lookup_1 _ _ 9%nat (int8_t, sm90_int8_config_M64)
                configurations_well_assembled eq_refl) as H.
  cbn beta iota in H.
  apply (proj2 (H int8_t bfloat16_t ScaledEpilogueBiasAzp_)).
  reflexivity.
Defined.
